(** * A shallow embedding of the voice-agent conversation pipeline

    The development follows the Python sources:
    - [src/utils/session.py]  : the session registry ([SessionManager]);
    - [src/llm.py]            : the language model and its conversation
                                history ([LanguageModel]);
    - [src/voice.py]          : the voice synthesizer ([VoiceSynthesizer]);
    - [src/audio.py]          : the audio conditioner ([AudioProcessor]);
    - [app.py]                : the WebSocket handler and the health check.

    Python dictionaries keyed by session identifiers are finite maps
    ([gmap string _]); [datetime] values are integers counting
    microseconds, which is the resolution of Python's [datetime] and
    [timedelta]; exceptions are values of an error monad. *)

From stdpp Require Import gmap strings list fin_maps.
From Stdlib Require Import ZArith Lia.
From Stdlib.Strings Require Import Byte.

#[local] Open Scope Z_scope.

(** ** Python values, exceptions and results *)

(** The JSON-like values that the health reports and the error payload
    are made of; a dictionary keeps its items in insertion order. *)
#[local] Unset Elimination Schemes.
Inductive pyval :=
| PyNone
| PyBool (b : bool)
| PyInt (z : Z)
| PyStr (s : string)
| PyDict (items : list (string * pyval)).
#[local] Set Elimination Schemes.

(** [k in d] and [d.get(k)] on the items of a dictionary. *)
Fixpoint dict_get (k : string) (items : list (string * pyval)) : option pyval :=
  match items with
  | [] => None
  | (k', v) :: rest => if String.eqb k k' then Some v else dict_get k rest
  end.

Definition dict_contains (k : string) (items : list (string * pyval)) : bool :=
  match dict_get k items with Some _ => true | None => false end.

(** [v == "healthy"]-style comparison of a value with a string literal:
    only a string with the same characters is equal to it. *)
Definition eq_str (v : option pyval) (s : string) : bool :=
  match v with
  | Some (PyStr s') => String.eqb s' s
  | _ => false
  end.

(** An exception (an instance of a subclass of [Exception]): the name of
    its class and [str(e)].  The classes that [app.py] imports from
    [src/utils/exceptions.py] are used there as plain exception classes:
    built from one message, which is what [str] gives back. *)
Record exn := Exn { exn_class : string; exn_str : string }.

(** The outcome of a call that may raise. *)
Inductive result (A : Type) :=
| Ok (a : A)
| Raise (e : exn).
Arguments Ok {A} a.
Arguments Raise {A} e.

(** ** Session registry ([src/utils/session.py]) *)

Module Session.

(** The per-session dictionary
    [{"created_at": _, "last_activity": _, "is_active": _}]. *)
Record session_data := SessionData {
  created_at : Z;
  last_activity : Z;
  is_active : bool
}.

(** [SessionManager.__init__]: [self.sessions = {}]. *)
Definition init : gmap string session_data := ∅.

(** [create_session]: [session_id] stands for [str(uuid.uuid4())]; the
    two calls of [datetime.now()] are the readings [now1] and [now2]. *)
Definition create_session (session_id : string) (now1 now2 : Z)
    (sessions : gmap string session_data) : gmap string session_data :=
  <[session_id := SessionData now1 now2 true]> sessions.

(** [update_session]: only a known session gets a new
    ["last_activity"]. *)
Definition update_session (now : Z) (session_id : string)
    (sessions : gmap string session_data) : gmap string session_data :=
  match sessions !! session_id with
  | Some d =>
      <[session_id := SessionData (created_at d) now (is_active d)]> sessions
  | None => sessions
  end.

(** [end_session]: only a known session gets ["is_active"] set to
    [False]; the clock is not read. *)
Definition end_session (session_id : string)
    (sessions : gmap string session_data) : gmap string session_data :=
  match sessions !! session_id with
  | Some d =>
      <[session_id := SessionData (created_at d) (last_activity d) false]>
        sessions
  | None => sessions
  end.

(** [timedelta(minutes=m)], in microseconds. *)
Definition timedelta_minutes (m : Z) : Z := m * 60 * 1000000.

(** The test of the first loop of [cleanup_inactive_sessions]:
    [not is_active] and [age > timedelta(minutes=max_age_minutes)]
    with [age = current_time - last_activity]. *)
Definition to_remove (current_time max_age_minutes : Z)
    (d : session_data) : bool :=
  negb (is_active d)
  && (timedelta_minutes max_age_minutes <? current_time - last_activity d).

(** The list [sessions_to_remove] built by the first loop. *)
Definition sessions_to_remove (current_time max_age_minutes : Z)
    (sessions : gmap string session_data) : list string :=
  (List.filter (λ kv, to_remove current_time max_age_minutes kv.2)
     (map_to_list sessions)).*1.

(** [cleanup_inactive_sessions]: the second loop deletes the collected
    identifiers one by one. *)
Definition cleanup_inactive_sessions (current_time max_age_minutes : Z)
    (sessions : gmap string session_data) : gmap string session_data :=
  foldl (λ m session_id, delete session_id m) sessions
    (sessions_to_remove current_time max_age_minutes sessions).

(** [get_active_sessions_count]. *)
Definition get_active_sessions_count
    (sessions : gmap string session_data) : Z :=
  Z.of_nat (length (List.filter (λ kv, is_active kv.2) (map_to_list sessions))).

(** A timed script of registry calls; [exec now c] performs the call
    [c] while the clock shows [now]. *)
Inductive call :=
| Create (session_id : string)
| Touch (session_id : string)
| End (session_id : string)
| Sweep (max_age_minutes : Z).

Definition exec (now : Z) (c : call)
    (sessions : gmap string session_data) : gmap string session_data :=
  match c with
  | Create session_id => create_session session_id now now sessions
  | Touch session_id => update_session now session_id sessions
  | End session_id => end_session session_id sessions
  | Sweep max_age_minutes =>
      cleanup_inactive_sessions now max_age_minutes sessions
  end.

Definition run (script : list (Z * call))
    (sessions : gmap string session_data) : gmap string session_data :=
  foldl (λ m tc, exec tc.1 tc.2 m) sessions script.

End Session.

(** ** Language model ([src/llm.py]) *)

Module LLM.

(** A chat message [{"role": _, "content": _}]. *)
Record message := Message { role : string; content : string }.

(** The fields of [LanguageModel] that the methods read or write. *)
Record LanguageModel := Build {
  provider : string;
  is_initialized : bool;
  conversation_history : gmap string (list message)
}.

(** [__init__]. *)
Definition init (default_provider : string) : LanguageModel :=
  Build default_provider false ∅.

(** [initialize]. *)
Definition initialize (self : LanguageModel) : LanguageModel :=
  Build (provider self) true (conversation_history self).

Definition system_prompt : string :=
  "You are a helpful AI assistant engaged in a voice conversation. Keep your responses concise and natural.".

(** The history that the call stores: the two new turns are appended
    and, when more than 10 messages result, the last 10 are kept
    ([history[-10:]]). *)
Definition extend_and_trim (history : list message)
    (user_input response_text : string) : list message :=
  let history :=
    history ++ [Message "user" user_input;
                Message "assistant" response_text] in
  if (10 <? length history)%nat
  then drop (length history - 10)%nat history
  else history.

(** [_generate_openai_response].  [acreate messages] is the outcome of
    reading the model configuration and of the remote chat completion
    on [messages], up to the extraction of the reply text: the text,
    or the exception raised on the way. *)
Definition _generate_openai_response
    (acreate : list message → result string)
    (user_input session_id : string) (self : LanguageModel)
    : result string * LanguageModel :=
  let history := default [] (conversation_history self !! session_id) in
  let messages :=
    [Message "system" system_prompt] ++ history
      ++ [Message "user" user_input] in
  match acreate messages with
  | Ok response_text =>
      let history := extend_and_trim history user_input response_text in
      (Ok response_text,
       Build (provider self) (is_initialized self)
         (<[session_id := history]> (conversation_history self)))
  | Raise e => (Raise e, self)
  end.

(** [generate_response]. *)
Definition generate_response
    (acreate : list message → result string)
    (user_input session_id : string) (self : LanguageModel)
    : result string * LanguageModel :=
  if negb (is_initialized self)
  then (Raise (Exn "RuntimeError" "Language model not initialized"), self)
  else if String.eqb (provider self) "openai"
  then _generate_openai_response acreate user_input session_id self
  else (Raise (Exn "ValueError" ("Unsupported provider: " +:+ provider self)),
        self).

(** [clear_history]. *)
Definition clear_history (session_id : string) (self : LanguageModel)
    : LanguageModel :=
  Build (provider self) (is_initialized self)
    (delete session_id (conversation_history self)).

(** [health_check]. *)
Definition health_check (self : LanguageModel) : pyval :=
  PyDict [("status",
           PyStr (if is_initialized self then "healthy" else "not_initialized"));
          ("provider", PyStr (provider self))].

(** The history passed to the provider for a session:
    [conversation_history.get(session_id, [])]. *)
Definition history (session_id : string) (self : LanguageModel)
    : list message :=
  default [] (conversation_history self !! session_id).

(** The shape of a stored history: turns come in pairs and at most 10
    messages are kept. *)
Definition paired_and_capped (h : list message) : Prop :=
  Nat.even (length h) = true ∧ (length h ≤ 10)%nat.

(** The calls a client of the object can make, and their effect on the
    object. *)
Inductive call :=
| Initialize
| Generate (acreate : list message → result string)
           (user_input session_id : string)
| Clear (session_id : string).

Definition exec (c : call) (self : LanguageModel) : LanguageModel :=
  match c with
  | Initialize => initialize self
  | Generate acreate user_input session_id =>
      (generate_response acreate user_input session_id self).2
  | Clear session_id => clear_history session_id self
  end.

Definition run (script : list call) (self : LanguageModel) : LanguageModel :=
  foldl (λ lm c, exec c lm) self script.

End LLM.

(** ** Voice synthesizer ([src/voice.py]) *)

Module Voice.

Record VoiceSynthesizer := Build {
  provider : string;
  is_initialized : bool
}.

Definition init (default_provider : string) : VoiceSynthesizer :=
  Build default_provider false.

Definition initialize (self : VoiceSynthesizer) : VoiceSynthesizer :=
  Build (provider self) true.

(** [synthesize]; [elevenlabs_generate text] is the outcome of
    [_synthesize_elevenlabs]: the audio, or the exception raised by
    the configuration lookup or by the remote call. *)
Definition synthesize (elevenlabs_generate : string → result (list byte))
    (text : string) (self : VoiceSynthesizer) : result (list byte) :=
  if negb (is_initialized self)
  then Raise (Exn "RuntimeError" "Voice synthesizer not initialized")
  else if String.eqb (provider self) "elevenlabs"
  then elevenlabs_generate text
  else Raise (Exn "ValueError" ("Unsupported provider: " +:+ provider self)).

Definition health_check (self : VoiceSynthesizer) : pyval :=
  PyDict [("status",
           PyStr (if is_initialized self then "healthy" else "not_initialized"));
          ("provider", PyStr (provider self))].

End Voice.

(** ** Audio conditioner ([src/audio.py]) *)

Module Audio.

(** A [float32] sample is kept as the four bytes it was received in;
    the IEEE arithmetic of the noise gate and of the gain control is
    not part of this model. *)
Definition float32 : Type := byte * byte * byte * byte.

(** The array after decoding: shape [(n,)], or [(n, 2)] after
    [reshape(-1, 2)]. *)
Inductive ndarray :=
| Mono (samples : list float32)
| Stereo (frames : list (float32 * float32)).

(** The samples of a buffer whose length is a multiple of 4. *)
Fixpoint samples_of (audio_data : list byte) : list float32 :=
  match audio_data with
  | b0 :: b1 :: b2 :: b3 :: rest => (b0, b1, b2, b3) :: samples_of rest
  | _ => []
  end.

(** [np.frombuffer(audio_data, dtype=np.float32)]: numpy raises
    [ValueError] when the size of the buffer is not a multiple of the
    4-byte element size. *)
Definition frombuffer (audio_data : list byte) : result (list float32) :=
  if (length audio_data mod 4 =? 0)%nat
  then Ok (samples_of audio_data)
  else Raise (Exn "ValueError"
                "buffer size must be a multiple of element size").

Fixpoint frames_of (samples : list float32) : list (float32 * float32) :=
  match samples with
  | l :: r :: rest => (l, r) :: frames_of rest
  | _ => []
  end.

(** [audio_array.reshape(-1, 2)]: numpy raises [ValueError] when the
    number of samples is odd. *)
Definition reshape_2 (samples : list float32) : result ndarray :=
  if (length samples mod 2 =? 0)%nat
  then Ok (Stereo (frames_of samples))
  else Raise (Exn "ValueError"
                "cannot reshape array into shape (2)").

(** The configured processor.  [_reduce_noise] and [_apply_agc] compute
    on floating-point samples (and the first one writes into the array
    it is given); they are taken as they are, as functions that return
    an array or raise. *)
Record AudioProcessor := Build {
  channels : Z;
  _reduce_noise : ndarray → result ndarray;
  _apply_agc : ndarray → result ndarray
}.

(** [process]: the [except] clause logs and re-raises the exception
    unchanged. *)
Definition process (self : AudioProcessor) (audio_data : list byte)
    : result ndarray :=
  match frombuffer audio_data with
  | Raise e => Raise e
  | Ok samples =>
      match (if channels self =? 2 then reshape_2 samples
             else Ok (Mono samples)) with
      | Raise e => Raise e
      | Ok audio_array =>
          match _reduce_noise self audio_array with
          | Raise e => Raise e
          | Ok processed_audio => _apply_agc self processed_audio
          end
      end
  end.

End Audio.

(** ** The application ([app.py]) *)

Module App.

(** What [speech_recognizer.transcribe] returns: the handler reads the
    attributes [text] and [is_final]. *)
Record transcript := Transcript { text : string; is_final : bool }.

(** *** The connection *)

(** Messages from the server to the client, in the order sent. *)
Inductive ws_msg :=
| SentBytes (data : list byte)
| SentJson (v : pyval)
| SentClose (code : Z).

(** The server side of a WebSocket: once a close frame was sent or
    the client has disconnected, sending raises [RuntimeError]. *)
Record WebSocket := BuildWebSocket {
  closed : bool;
  sent : list ws_msg
}.

Definition WS_1000_NORMAL_CLOSURE : Z := 1000.
Definition WS_1011_INTERNAL_ERROR : Z := 1011.

(** The timeout of [asyncio.wait_for], 30 seconds, in microseconds. *)
Definition receive_timeout : Z := 30 * 1000000.

(** *** The state the handler works on *)

(** Log of the calls made to the collaborators (a ghost field: the
    program does not read it). *)
Inductive provider_call :=
| CallProcess (audio_data : list byte)
| CallTranscribe (processed_audio : Audio.ndarray)
| CallGenerate (user_input session_id : string)
| CallSynthesize (response : string).

Record state := BuildState {
  audio_processor : Audio.AudioProcessor;
  session_manager : gmap string Session.session_data;
  language_model : LLM.LanguageModel;
  voice_synthesizer : Voice.VoiceSynthesizer;
  websocket : WebSocket;
  calls : list provider_call
}.

Definition set_session_manager (f : gmap string Session.session_data →
                                    gmap string Session.session_data)
    (st : state) : state :=
  BuildState (audio_processor st) (f (session_manager st))
    (language_model st) (voice_synthesizer st) (websocket st) (calls st).

Definition set_language_model (lm : LLM.LanguageModel) (st : state) : state :=
  BuildState (audio_processor st) (session_manager st) lm
    (voice_synthesizer st) (websocket st) (calls st).

Definition set_websocket (ws : WebSocket) (st : state) : state :=
  BuildState (audio_processor st) (session_manager st) (language_model st)
    (voice_synthesizer st) ws (calls st).

Definition log (c : provider_call) (st : state) : state :=
  BuildState (audio_processor st) (session_manager st) (language_model st)
    (voice_synthesizer st) (websocket st) (calls st ++ [c]).

(** *** What the surroundings decide during one turn of the loop *)

Inductive incoming :=
| Frame (audio_data : list byte)
| Disconnect (code : Z).

(** [arrival]: the next message of the client and the time, in
    microseconds, it takes to arrive ([None]: the client stays
    silent); the outcomes of the transcription service and of the two
    remote providers; the clock reading used by [update_session]. *)
Record world := World {
  arrival : option (Z * incoming);
  transcribe : Audio.ndarray → result transcript;
  acreate : list LLM.message → result string;
  elevenlabs_generate : string → result (list byte);
  now : Z
}.

(** *** State and exception monad *)

Definition M (A : Type) : Type := state → result A * state.

Definition ret {A} (a : A) : M A := λ st, (Ok a, st).

Definition raise {A} (e : exn) : M A := λ st, (Raise e, st).

Definition bind {A B} (m : M A) (k : A → M B) : M B :=
  λ st, match m st with
        | (Ok a, st') => k a st'
        | (Raise e, st') => (Raise e, st')
        end.

(** [try: m  except Exception as e: h e]. *)
Definition try_except {A} (m : M A) (h : exn → M A) : M A :=
  λ st, match m st with
        | (Ok a, st') => (Ok a, st')
        | (Raise e, st') => h e st'
        end.

Notation "x <- m ;; k" := (bind m (λ x, k))
  (at level 100, m at next level, right associativity).
Notation "m ;;; k" := (bind m (λ _, k))
  (at level 100, right associativity).

(** [try: m  except Exception as e: raise cls(f"{prefix}{str(e)}")]. *)
Definition wrap {A} (cls prefix : string) (m : M A) : M A :=
  try_except m (λ e, raise (Exn cls (prefix +:+ exn_str e))).

(** *** Operations of the connection *)

(** [websocket.accept()]. *)
Definition accept : M unit :=
  λ st, (Ok tt, set_websocket (BuildWebSocket false []) st).

Definition send (m : ws_msg) : M unit :=
  λ st, if closed (websocket st)
        then (Raise (Exn "RuntimeError"
                       "Cannot call send once a close message has been sent."),
              st)
        else (Ok tt,
              set_websocket
                (BuildWebSocket false (sent (websocket st) ++ [m])) st).

Definition send_bytes (data : list byte) : M unit := send (SentBytes data).

Definition send_json (v : pyval) : M unit := send (SentJson v).

(** [websocket.close(code)]; the default code is 1000. *)
Definition close (code : Z) : M unit :=
  λ st, if closed (websocket st)
        then (Raise (Exn "RuntimeError"
                       "Cannot call send once a close message has been sent."),
              st)
        else (Ok tt,
              set_websocket
                (BuildWebSocket true (sent (websocket st) ++ [SentClose code]))
                st).

(** [asyncio.wait_for(websocket.receive_bytes(), timeout=30.0)]: a
    message that takes less than the timeout is received, otherwise
    [asyncio.TimeoutError] is raised; a disconnect raises
    [WebSocketDisconnect] and leaves the connection closed. *)
Definition receive_bytes (w : world) : M (list byte) :=
  match arrival w with
  | Some (delay, m) =>
      if delay <? receive_timeout
      then match m with
           | Frame audio_data => ret audio_data
           | Disconnect code =>
               λ st, (Raise (Exn "WebSocketDisconnect" ""),
                      set_websocket
                        (BuildWebSocket true (sent (websocket st))) st)
           end
      else raise (Exn "TimeoutError" "")
  | None => raise (Exn "TimeoutError" "")
  end.

(** *** Calls to the collaborators *)

Definition call_process (audio_data : list byte) : M Audio.ndarray :=
  λ st, (Audio.process (audio_processor st) audio_data,
         log (CallProcess audio_data) st).

Definition call_transcribe (w : world) (processed_audio : Audio.ndarray)
    : M transcript :=
  λ st, (transcribe w processed_audio, log (CallTranscribe processed_audio) st).

Definition call_generate_response (w : world)
    (user_input session_id : string) : M string :=
  λ st, let r := LLM.generate_response (acreate w) user_input session_id
                   (language_model st) in
        (r.1, set_language_model r.2
                (log (CallGenerate user_input session_id) st)).

Definition call_synthesize (w : world) (response : string)
    : M (list byte) :=
  λ st, (Voice.synthesize (elevenlabs_generate w) response
           (voice_synthesizer st),
         log (CallSynthesize response) st).

Definition update_session (w : world) (session_id : string) : M unit :=
  λ st, (Ok tt,
         set_session_manager (Session.update_session (now w) session_id) st).

(** *** The handler *)

(** How one turn of [while True] ends when nothing is raised. *)
Inductive ctl := Continue | Break.

(** The body of [while True]: the inner [try] with its
    [except asyncio.TimeoutError] clause. *)
Definition loop_body (session_id : string) (w : world) : M ctl :=
  try_except
    (audio_data <- receive_bytes w ;;
     processed_audio <-
       wrap "AudioProcessingError" "Audio processing failed: "
         (call_process audio_data) ;;
     transcript <-
       wrap "TranscriptionError" "Speech recognition failed: "
         (call_transcribe w processed_audio) ;;
     (if is_final transcript
      then
        response <-
          wrap "LLMError" "Language model processing failed: "
            (call_generate_response w (text transcript) session_id) ;;
        audio_response <-
          wrap "VoiceSynthesisError" "Voice synthesis failed: "
            (call_synthesize w response) ;;
        send_bytes audio_response
      else ret tt) ;;;
     update_session w session_id ;;;
     ret Continue)
    (λ e, if String.eqb (exn_class e) "TimeoutError"
          then close WS_1000_NORMAL_CLOSURE ;;; ret Break
          else raise e).

(** The state in which a turn with a final transcript leaves the
    generation stage. *)
Definition after_generation (session_id : string) (w : world) (st : state)
    (audio_data : list byte) (processed : Audio.ndarray) (tr : transcript)
    : state :=
  set_language_model
    (LLM.generate_response (acreate w) (text tr) session_id
       (language_model st)).2
    (log (CallGenerate (text tr) session_id)
       (log (CallTranscribe processed) (log (CallProcess audio_data) st))).

(** Where a run of the handler stands. *)
Inductive conn_state := AWAITING_FRAME | CLOSED.

(** [while True] over the turns that the surroundings have provided so
    far; when they are used up the handler is waiting in
    [receive_bytes]. *)
Fixpoint while_true (session_id : string) (ws : list world)
    : M conn_state :=
  match ws with
  | [] => ret AWAITING_FRAME
  | w :: ws' =>
      c <- loop_body session_id w ;;
      match c with
      | Continue => while_true session_id ws'
      | Break => ret CLOSED
      end
  end.

(** The body of the outer [except Exception as e] clause; the bare
    [except: pass] swallows what sending and closing raise. *)
Definition on_exception (e : exn) (st : state) : state :=
  let error_msg := exn_str e in
  (try_except
     (send_json (PyDict [("error", PyStr error_msg)]) ;;;
      close WS_1011_INTERNAL_ERROR)
     (λ _, ret tt) st).2.

(** The [finally] clause. *)
Definition finally (session_id : string) (st : state) : state :=
  let st := set_session_manager (Session.end_session session_id) st in
  (try_except (close WS_1000_NORMAL_CLOSURE) (λ _, ret tt) st).2.

(** [websocket_endpoint].  [session_id], [now1] and [now2] are what
    [create_session] draws from [uuid4] and from the clock;
    [on_connect] is the part before the [try]. *)
Definition on_connect (session_id : string) (now1 now2 : Z) (st : state)
    : state :=
  let st := (accept st).2 in
  set_session_manager (Session.create_session session_id now1 now2) st.

Definition websocket_endpoint (session_id : string) (now1 now2 : Z)
    (ws : list world) (st : state) : conn_state * state :=
  let st := on_connect session_id now1 now2 st in
  match while_true session_id ws st with
  | (Ok AWAITING_FRAME, st') => (AWAITING_FRAME, st')
  | (Ok CLOSED, st') => (CLOSED, finally session_id st')
  | (Raise e, st') => (CLOSED, finally session_id (on_exception e st'))
  end.

(** *** The health check *)

(** [isinstance(status, dict) and "status" in status]. *)
Definition reports_status (status : pyval) : bool :=
  match status with
  | PyDict items => dict_contains "status" items
  | _ => false
  end.

(** [status.get("status") == "healthy"]. *)
Definition status_healthy (status : pyval) : bool :=
  match status with
  | PyDict items => eq_str (dict_get "status" items) "healthy"
  | _ => false
  end.

(** [all(... for status in components_status.values() if ...)]. *)
Definition all_healthy (components_status : list (string * pyval)) : bool :=
  forallb status_healthy (List.filter reports_status components_status.*2).

Definition components_status (speech_health : pyval) (st : state)
    : list (string * pyval) :=
  [("speech_recognition", speech_health);
   ("language_model", LLM.health_check (language_model st));
   ("voice_synthesis", Voice.health_check (voice_synthesizer st));
   ("sessions",
    PyDict [("active_sessions",
             PyInt (Session.get_active_sessions_count (session_manager st)))])].

(** [health_check].  [speech_health] is the outcome of
    [speech_recognizer.health_check()] and [timestamp] is
    [datetime.now().isoformat()]. *)
Definition health_check (speech_health : result pyval) (timestamp : string)
    (st : state) : result pyval :=
  match speech_health with
  | Raise _ =>
      Raise (Exn "HTTPException" "Internal server error during health check")
  | Ok speech =>
      let components := components_status speech st in
      Ok (PyDict
            [("status",
              PyStr (if all_healthy components then "healthy" else "degraded"));
             ("components", PyDict components);
             ("timestamp", PyStr timestamp)])
  end.

(** The ["status"] entry of the report. *)
Definition overall (report : result pyval) : option pyval :=
  match report with
  | Ok (PyDict items) => dict_get "status" items
  | _ => None
  end.

(** No frame arrives within the receive timeout. *)
Definition no_frame_within_timeout (w : world) : Prop :=
  match arrival w with
  | Some (delay, _) => receive_timeout ≤ delay
  | None => True
  end.

(** An error payload is a JSON message. *)
Definition is_json (m : ws_msg) : bool :=
  match m with SentJson _ => true | _ => false end.

(** The startup hook, and the state of the process once it has run. *)
Definition startup_event (st : state) : state :=
  BuildState (audio_processor st) (session_manager st)
    (LLM.initialize (language_model st))
    (Voice.initialize (voice_synthesizer st)) (websocket st) (calls st).

End App.

(** ** Concrete processes and clients *)

Module Examples.
Import App.

(** A mono processor whose two floating-point stages succeed and return
    the array they are given, which is what the noise gate, the gain
    control and the clipping make of a silent frame when the array can
    be written to. *)
Definition mono : Audio.AudioProcessor := Audio.Build 1 Ok Ok.

(** A mono processor on the [bytes] objects that the handler passes:
    [np.frombuffer] gives a read-only array, and the assignment of
    [_reduce_noise] into it raises [ValueError]. *)
Definition read_only : Audio.AudioProcessor :=
  Audio.Build 1
    (λ _, Raise (Exn "ValueError" "assignment destination is read-only"))
    Ok.

(** The process after the startup hook, with a given audio processor. *)
Definition started_with (processor : Audio.AudioProcessor) : state :=
  startup_event
    (BuildState processor Session.init (LLM.init "openai")
       (Voice.init "elevenlabs") (BuildWebSocket false []) []).

(** A frame of three bytes, which is no whole number of samples. *)
Definition short_frame : list byte := [x00; x00; x00].

(** A turn in which the client sends the frame of three bytes. *)
Definition malformed : world :=
  World (Some (1000000, Frame short_frame))
    (λ _, Ok (Transcript "hello" true))
    (λ _, Ok "hi there")
    (λ _, Ok [x01; x02])
    1000000.

(** The process after the module is loaded, and after the startup
    hook. *)
Definition loaded : state :=
  BuildState mono Session.init (LLM.init "openai") (Voice.init "elevenlabs")
    (BuildWebSocket false []) [].

Definition started : state := startup_event loaded.

(** One silent sample. *)
Definition frame : list byte := [x00; x00; x00; x00].

(** A turn in which every service answers: the utterance is final. *)
Definition hello : world :=
  World (Some (1000000, Frame frame))
    (λ _, Ok (Transcript "hello" true))
    (λ _, Ok "hi there")
    (λ _, Ok [x01; x02])
    1000000.

(** A turn with an interim transcript. *)
Definition partial : world :=
  World (Some (1000000, Frame frame))
    (λ _, Ok (Transcript "hel" false))
    (λ _, Ok "hi there")
    (λ _, Ok [x01; x02])
    1000000.

(** A turn in which the transcription service raises. *)
Definition transcription_fault : world :=
  World (Some (1000000, Frame frame))
    (λ _, Raise (Exn "ConnectionError" "service unreachable"))
    (λ _, Ok "hi there")
    (λ _, Ok [x01; x02])
    1000000.

(** A turn in which the synthesis service raises. *)
Definition synthesis_fault : world :=
  World (Some (1000000, Frame frame))
    (λ _, Ok (Transcript "hello" true))
    (λ _, Ok "hi there")
    (λ _, Raise (Exn "ConnectionError" "service unreachable"))
    1000000.

(** A turn in which the client stays silent. *)
Definition silence : world :=
  World None
    (λ _, Ok (Transcript "" false))
    (λ _, Ok "")
    (λ _, Ok [])
    31000000.

End Examples.

(** ** Configuration ([src/utils/config.py]) *)

Module Config.

(** What [yaml.safe_load] returns.  A floating-point scalar is kept as
    the text it was written in, since [get] and [validate] only pass
    values on.  A mapping is the list of its items under string keys,
    which are distinct; an entry under a key that is not a string can
    never be reached by [get], whose path segments are strings. *)
#[local] Unset Elimination Schemes.
Inductive yaml :=
| YNull
| YBool (b : bool)
| YInt (z : Z)
| YFloat (repr : string)
| YStr (s : string)
| YSeq (items : list yaml)
| YMap (items : list (string * yaml)).
#[local] Set Elimination Schemes.

(** [value.get(k)] on a [dict]. *)
Fixpoint map_get (k : string) (items : list (string * yaml)) : option yaml :=
  match items with
  | [] => None
  | (k', v) :: rest => if String.eqb k k' then Some v else map_get k rest
  end.

(** [key.split(".")]: the segments between the dots (character 46);
    there is always at least one segment. *)
Fixpoint split_dot (key : string) : list string :=
  match key with
  | EmptyString => [EmptyString]
  | String c rest =>
      if Ascii.eqb c (Ascii.ascii_of_nat 46)
      then EmptyString :: split_dot rest
      else match split_dot rest with
           | segment :: segments => String c segment :: segments
           | [] => [String c EmptyString]
           end
  end.

(** The loop of [get] over the remaining segments, [value] being the
    loop variable of that name. *)
Fixpoint walk (keys : list string) (value default : yaml) : yaml :=
  match keys with
  | [] => value
  | k :: keys' =>
      match value with
      | YMap items =>
          match map_get k items with
          | None | Some YNull => default
          | Some value' => walk keys' value' default
          end
      | _ => default
      end
  end.

(** [Config.get(key, default)] on the loaded configuration [_config]. *)
Definition get (key : string) (default : yaml) (_config : yaml) : yaml :=
  walk (split_dot key) _config default.

Definition required_keys : list string :=
  ["app.name"; "app.version"; "audio.sample_rate"; "audio.channels";
   "speech_recognition.default_provider"; "llm.default_provider";
   "voice.default_provider"].

(** The loop of [validate] over the keys still to be checked. *)
Fixpoint validate_keys (keys : list string) (_config : yaml) : result bool :=
  match keys with
  | [] => Ok true
  | key :: keys' =>
      match get key YNull _config with
      | YNull =>
          Raise (Exn "ValueError" ("Missing required configuration: " +:+ key))
      | _ => validate_keys keys' _config
      end
  end.

(** [Config.validate]. *)
Definition validate (_config : yaml) : result bool :=
  validate_keys required_keys _config.

End Config.

(** ** Start of the process ([app.py], module level) *)

Module Boot.

(** The dictionary [required_keys], in the order it is written. *)
Definition required_keys : list (string * string) :=
  [("RETELL_API_KEY", "Retell.ai"); ("OPENAI_API_KEY", "OpenAI");
   ("DEEPGRAM_API_KEY", "Deepgram"); ("ELEVENLABS_API_KEY", "ElevenLabs")].

(** [not os.getenv(key)]: the variable is unset or empty. *)
Definition missing (environ : gmap string string) (key : string) : bool :=
  match environ !! key with
  | None => true
  | Some value => String.eqb value EmptyString
  end.

(** The loop [for key, service in required_keys.items()]. *)
Fixpoint verify_keys (keys : list (string * string))
    (environ : gmap string string) : result unit :=
  match keys with
  | [] => Ok tt
  | (key, service) :: keys' =>
      if missing environ key
      then Raise (Exn "APIKeyError" ("Missing API key for " +:+ service))
      else verify_keys keys' environ
  end.

Definition verify_api_keys (environ : gmap string string) : result unit :=
  verify_keys required_keys environ.

End Boot.

(** ** Notions about conversations and connections *)

Module Conversation.

(** The [messages] that [_generate_openai_response] builds for the
    provider. *)
Definition messages_for (user_input session_id : string)
    (self : LLM.LanguageModel) : list LLM.message :=
  [LLM.Message "system" LLM.system_prompt]
    ++ LLM.history session_id self ++ [LLM.Message "user" user_input].

(** The two turns of an exchange, and the turns of a list of
    exchanges. *)
Definition turn_pair (exchange : string * string) : list LLM.message :=
  [LLM.Message "user" exchange.1; LLM.Message "assistant" exchange.2].

Definition turns (exchanges : list (string * string)) : list LLM.message :=
  flat_map turn_pair exchanges.

(** A history made of user turns each followed by an assistant turn. *)
Fixpoint alternating (h : list LLM.message) : bool :=
  match h with
  | [] => true
  | m1 :: m2 :: rest =>
      String.eqb (LLM.role m1) "user"
      && String.eqb (LLM.role m2) "assistant"
      && alternating rest
  | _ => false
  end.

(** The calls of a run of exchanges in one session, each answered by
    the provider with the given reply. *)
Definition exchange_calls (session_id : string)
    (exchanges : list (string * string)) : list LLM.call :=
  map (λ exchange,
         LLM.Generate (λ _, Ok exchange.2) exchange.1 session_id)
    exchanges.

(** A language model on which [initialize] was called. *)
Definition ready (default_provider : string) : LLM.LanguageModel :=
  LLM.initialize (LLM.init default_provider).

End Conversation.

Module Protocol.
Import App.

(** The ways in which the messages of a connection can end: nothing
    yet, a normal close, or one error object and the close with the
    internal-error code. *)
Inductive ending : list ws_msg → Prop :=
| ending_none : ending []
| ending_normal : ending [SentClose WS_1000_NORMAL_CLOSURE]
| ending_error (error_msg : string) :
    ending [SentJson (PyDict [("error", PyStr error_msg)]);
            SentClose WS_1011_INTERNAL_ERROR].

(** The client disconnects before the receive timeout. *)
Definition disconnects (w : world) : Prop :=
  ∃ delay code, arrival w = Some (delay, Disconnect code)
                ∧ delay < receive_timeout.

(** What the turns of a connection may do to the registry: the entry of
    the session keeps its creation time and its active flag, and no
    other entry changes. *)
Definition touched (session_id : string)
    (sessions sessions' : gmap string Session.session_data) : Prop :=
  (∀ k : string, k ≠ session_id → sessions' !! k = sessions !! k)
  ∧ match sessions !! session_id with
    | None => sessions' !! session_id = None
    | Some d =>
        ∃ d', sessions' !! session_id = Some d'
              ∧ Session.is_active d' = Session.is_active d
              ∧ Session.created_at d' = Session.created_at d
    end.

(** What the turns of a connection may do to the language model: the
    histories of the other sessions and the settings are kept. *)
Definition same_but_history (session_id : string)
    (lm lm' : LLM.LanguageModel) : Prop :=
  LLM.provider lm' = LLM.provider lm
  ∧ LLM.is_initialized lm' = LLM.is_initialized lm
  ∧ ∀ k : string, k ≠ session_id →
      LLM.conversation_history lm' !! k = LLM.conversation_history lm !! k.

End Protocol.

(** The samples of an array, and the bytes of samples, in order. *)
Definition array_samples (a : Audio.ndarray) : list Audio.float32 :=
  match a with
  | Audio.Mono samples => samples
  | Audio.Stereo frames => flat_map (λ f, [f.1; f.2]) frames
  end.

Definition sample_bytes (samples : list Audio.float32) : list byte :=
  flat_map (λ s, [s.1.1.1; s.1.1.2; s.1.2; s.2]) samples.

(** * Properties *)

(** ** The session registry *)

Section SessionFacts.
Import Session.
Implicit Types (sessions : gmap string session_data) (d : session_data).

Lemma foldl_delete_lookup (l : list string) sessions (k : string) :
  foldl (λ m session_id, delete session_id m) sessions l !! k
  = if decide (k ∈ l) then None else sessions !! k.
Proof.
  revert sessions. induction l as [|i l IH]; intros sessions; cbn [foldl].
  - by rewrite decide_False by apply not_elem_of_nil.
  - rewrite IH. destruct (decide (k ∈ l)) as [Hin|Hnin].
    + by rewrite decide_True by (by right).
    + destruct (decide (k = i)) as [->|Hne].
      * rewrite lookup_delete_eq. by rewrite decide_True by left.
      * rewrite lookup_delete_ne by done.
        rewrite decide_False; [done|].
        intros [?|?]%elem_of_cons; by simplify_eq.
Qed.

Lemma elem_of_sessions_to_remove now M sessions (k : string) :
  k ∈ sessions_to_remove now M sessions
  ↔ ∃ d, sessions !! k = Some d ∧ to_remove now M d = true.
Proof.
  unfold sessions_to_remove. rewrite list_elem_of_fmap. split.
  - intros [[k' d] [-> Hin]]. apply list_elem_of_In, filter_In in Hin.
    destruct Hin as [Hin Hrm]. apply list_elem_of_In, elem_of_map_to_list in Hin.
    by exists d.
  - intros (d & Hk & Hrm). exists (k, d). split; [done|].
    apply list_elem_of_In, filter_In. split; [|done].
    by apply list_elem_of_In, elem_of_map_to_list.
Qed.

(** What a sweep leaves of each entry. *)
Lemma cleanup_lookup now M sessions (k : string) :
  cleanup_inactive_sessions now M sessions !! k
  = match sessions !! k with
    | Some d => if to_remove now M d then None else Some d
    | None => None
    end.
Proof.
  unfold cleanup_inactive_sessions. rewrite foldl_delete_lookup.
  destruct (decide (k ∈ sessions_to_remove now M sessions)) as [Hin|Hnin].
  - apply elem_of_sessions_to_remove in Hin as (d & -> & ->). done.
  - destruct (sessions !! k) as [d|] eqn:Hk; [|done].
    destruct (to_remove now M d) eqn:Hrm; [|done].
    exfalso. apply Hnin, elem_of_sessions_to_remove. eauto.
Qed.

Lemma end_session_lookup sessions (k session_id : string) :
  end_session session_id sessions !! k
  = if decide (k = session_id)
    then (λ d, SessionData (created_at d) (last_activity d) false)
           <$> sessions !! k
    else sessions !! k.
Proof.
  unfold end_session. case_decide as Hk.
  - subst k. destruct (sessions !! session_id) as [d|] eqn:Hs.
    + by rewrite lookup_insert_eq.
    + by rewrite Hs.
  - destruct (sessions !! session_id); [|done].
    by rewrite lookup_insert_ne.
Qed.

Lemma end_session_known sessions (session_id : string) d :
  sessions !! session_id = Some d →
  end_session session_id sessions !! session_id
  = Some (SessionData (created_at d) (last_activity d) false).
Proof.
  intros Hd. rewrite end_session_lookup, decide_True by done. by rewrite Hd.
Qed.

Lemma to_remove_spec now M d :
  to_remove now M d = true
  ↔ is_active d = false ∧ timedelta_minutes M < now - last_activity d.
Proof.
  unfold to_remove. by rewrite andb_true_iff, negb_true_iff, Z.ltb_lt.
Qed.

End SessionFacts.

(** C10.  Ending a known session changes nothing but the [is_active]
    flag of that session, which becomes [false]: its two timestamps are
    kept, the registry has the same identifiers afterwards, and every
    other entry is the same.  As a consequence a later sweep removes the
    session exactly when the time since its last activity update exceeds
    the maximal age; the moment at which it was ended plays no part. *)
Theorem end_session_frame (sessions : gmap string Session.session_data)
    (session_id : string) (d : Session.session_data) :
  sessions !! session_id = Some d →
  Session.end_session session_id sessions !! session_id
    = Some (Session.SessionData (Session.created_at d)
              (Session.last_activity d) false)
  ∧ dom (Session.end_session session_id sessions) = dom sessions
  ∧ (∀ k : string, k ≠ session_id →
       Session.end_session session_id sessions !! k = sessions !! k)
  ∧ (∀ now M : Z,
       Session.cleanup_inactive_sessions now M
         (Session.end_session session_id sessions) !! session_id = None
       ↔ Session.timedelta_minutes M < now - Session.last_activity d).
Proof.
  intros Hd. assert (He := end_session_known _ _ _ Hd).
  split; [done|split; [|split]].
  - apply set_eq. intros k. rewrite !elem_of_dom, end_session_lookup.
    case_decide as Hk; [|done]. subst k. rewrite Hd. simpl.
    split; intros _; eauto.
  - intros k Hk. by rewrite end_session_lookup, decide_False.
  - intros now M. rewrite cleanup_lookup, He.
    destruct (Session.to_remove now M _) eqn:Hrm.
    + apply to_remove_spec in Hrm as [_ Hlt]. done.
    + split; [discriminate|]. intros Hlt.
      assert (Session.to_remove now M
                (Session.SessionData (Session.created_at d)
                   (Session.last_activity d) false) = true) as Hrm'
        by (by apply to_remove_spec).
      congruence.
Qed.

Lemma end_session_frame_witness :
  Session.end_session "a" (Session.create_session "a" 5 7 Session.init) !! "a"
    = Some (Session.SessionData 5 7 false).
Proof.
  apply (end_session_frame (Session.create_session "a" 5 7 Session.init) "a"
           (Session.SessionData 5 7 true)).
  reflexivity.
Defined.

(** C7, as stated, fails.  A session whose last activity is at time 0 is
    ended at T = 30 s (the idle timeout fired); with a maximal age of
    M = 1 minute and ε = 1 s, the sweep at T + M - ε = 89 s does not
    retain it. *)
Lemma sweep_before_end_plus_max_age_removes :
  ¬ is_Some
      (Session.run
         [(0, Session.Create "s");
          (30000000, Session.End "s");
          (30000000 + Session.timedelta_minutes 1 - 1000000, Session.Sweep 1)]
         Session.init !! "s").
Proof. vm_compute. intros [d Hd]. discriminate Hd. Qed.

(** C7, amended.  The age of an ended session counts from its last
    activity update L, not from the time T ≥ L at which it was ended.
    A sweep with maximal age M at T + M + ε removes the session; a sweep
    at T + M - ε retains it exactly when T - L ≤ ε, and so always when
    the session was ended at the moment of its last activity; the sweeps
    that retain it are those up to L + M.  A sweep removes exactly the
    inactive sessions whose time since the last activity exceeds M,
    leaves every other entry as it was, and never removes an active
    session. *)
Theorem sweep_correct_from_last_activity
    (sessions : gmap string Session.session_data) (session_id : string)
    (d : Session.session_data) (T M eps : Z) :
  sessions !! session_id = Some d →
  Session.last_activity d ≤ T →
  0 < eps →
  let ended := Session.end_session session_id sessions in
  let L := Session.last_activity d in
  Session.cleanup_inactive_sessions (T + Session.timedelta_minutes M + eps) M
    ended !! session_id = None
  ∧ (is_Some
       (Session.cleanup_inactive_sessions
          (T + Session.timedelta_minutes M - eps) M ended !! session_id)
     ↔ T - L ≤ eps)
  ∧ (∀ now : Z,
       is_Some (Session.cleanup_inactive_sessions now M ended !! session_id)
       ↔ now ≤ L + Session.timedelta_minutes M)
  ∧ (∀ (now : Z) (k : string) (d' : Session.session_data),
       ended !! k = Some d' →
       (Session.cleanup_inactive_sessions now M ended !! k = None
        ↔ Session.is_active d' = false
          ∧ Session.timedelta_minutes M < now - Session.last_activity d')
       ∧ (Session.cleanup_inactive_sessions now M ended !! k = None
          ∨ Session.cleanup_inactive_sessions now M ended !! k = Some d'))
  ∧ (∀ (now : Z) (k : string),
       ended !! k = None →
       Session.cleanup_inactive_sessions now M ended !! k = None).
Proof.
  intros Hd HT Heps ended L.
  assert (He := end_session_known _ _ _ Hd). fold ended in He.
  assert (Hkept : ∀ now : Z,
            is_Some (Session.cleanup_inactive_sessions now M ended
                       !! session_id)
            ↔ now ≤ L + Session.timedelta_minutes M).
  { intros now. rewrite cleanup_lookup, He.
    destruct (Session.to_remove now M _) eqn:Hrm.
    - apply to_remove_spec in Hrm as [_ Hlt]. simpl in Hlt. subst L.
      split; [by intros [? ?]|lia].
    - split; [|by eauto]. intros _.
      destruct (Z.le_gt_cases now (L + Session.timedelta_minutes M))
        as [Hle|Hgt]; [done|].
      assert (Session.to_remove now M
                (Session.SessionData (Session.created_at d)
                   (Session.last_activity d) false) = true) as Hrm'.
      { apply to_remove_spec. simpl. subst L. lia. }
      congruence. }
  split; [|split; [|split; [|split]]].
  - destruct (Session.cleanup_inactive_sessions _ M ended !! session_id)
      as [d'|] eqn:Hc; [|done].
    assert (Hs : is_Some (Session.cleanup_inactive_sessions
                            (T + Session.timedelta_minutes M + eps) M ended
                            !! session_id)) by (rewrite Hc; eauto).
    apply Hkept in Hs. subst L. lia.
  - rewrite Hkept. lia.
  - exact Hkept.
  - intros now k d' Hk. rewrite cleanup_lookup, Hk.
    destruct (Session.to_remove now M d') eqn:Hrm.
    + apply to_remove_spec in Hrm. split; [done|by left].
    + split; [|by right]. split; [done|].
      intros Hrm'%to_remove_spec. congruence.
  - intros now k Hk. by rewrite cleanup_lookup, Hk.
Qed.

Lemma sweep_correct_from_last_activity_witness :
  Session.create_session "s" 0 0 Session.init !! "s"
    = Some (Session.SessionData 0 0 true)
  ∧ 0 ≤ 30000000
  ∧ 0 < 1000000
  ∧ Session.cleanup_inactive_sessions
      (30000000 + Session.timedelta_minutes 1 + 1000000) 1
      (Session.end_session "s" (Session.create_session "s" 0 0 Session.init))
      !! "s" = None.
Proof.
  split; [reflexivity|]. split; [lia|]. split; [lia|].
  destruct (sweep_correct_from_last_activity
              (Session.create_session "s" 0 0 Session.init) "s"
              (Session.SessionData 0 0 true) 30000000 1 1000000)
    as [Hremoved _]; [reflexivity|simpl; lia|lia|exact Hremoved].
Defined.

(** ** The conversation history *)

Section HistoryFacts.
Import LLM.

Lemma extend_and_trim_length (h : list message) (u r : string) :
  length (extend_and_trim h u r) = Nat.min 10 (length h + 2).
Proof.
  unfold extend_and_trim. rewrite length_app. cbn [length].
  destruct (Nat.ltb_spec 10 (length h + 2)) as [Hlt|Hge].
  - rewrite length_drop, length_app. cbn [length]. lia.
  - rewrite length_app. cbn [length]. lia.
Qed.

Lemma extend_and_trim_ok (h : list message) (u r : string) :
  paired_and_capped h → paired_and_capped (extend_and_trim h u r).
Proof.
  intros [Heven Hle]. unfold paired_and_capped.
  rewrite extend_and_trim_length. split; [|lia].
  destruct (Nat.le_gt_cases (length h + 2) 10) as [Hsmall|Hbig].
  - rewrite Nat.min_r by lia.
    rewrite Nat.even_add, Heven. reflexivity.
  - by rewrite Nat.min_l by lia.
Qed.

Lemma exec_preserves (c : call) (self : LanguageModel) :
  map_Forall (λ _ h, paired_and_capped h) (conversation_history self) →
  map_Forall (λ _ h, paired_and_capped h) (conversation_history (exec c self)).
Proof.
  intros Hinv. destruct c as [|acreate user_input session_id|session_id]; simpl.
  - done.
  - unfold generate_response.
    destruct (is_initialized self); simpl; [|done].
    destruct (String.eqb (provider self) "openai"); [|done].
    unfold _generate_openai_response.
    destruct (acreate _) as [response_text|e]; simpl; [|done].
    apply map_Forall_insert_2; [|done].
    apply extend_and_trim_ok.
    destruct (conversation_history self !! session_id) as [h|] eqn:Hh; simpl.
    + by apply (Hinv session_id).
    + split; [reflexivity|simpl; lia].
  - by apply map_Forall_delete.
Qed.

Lemma run_preserves (script : list call) (self : LanguageModel) :
  map_Forall (λ _ h, paired_and_capped h) (conversation_history self) →
  map_Forall (λ _ h, paired_and_capped h)
    (conversation_history (run script self)).
Proof.
  revert self. induction script as [|c script IH]; intros self Hinv.
  - done.
  - apply IH, exec_preserves, Hinv.
Qed.

(** What a call of [generate_response] does to the object. *)
Lemma generate_response_effect (acreate : list message → result string)
    (user_input session_id : string) (self : LanguageModel) :
  match (generate_response acreate user_input session_id self).1 with
  | Ok response_text =>
      (generate_response acreate user_input session_id self).2
      = Build (provider self) (is_initialized self)
          (<[session_id :=
               extend_and_trim (history session_id self) user_input
                 response_text]> (conversation_history self))
  | Raise _ => (generate_response acreate user_input session_id self).2 = self
  end.
Proof.
  unfold generate_response.
  destruct (is_initialized self) eqn:Hinit; simpl; [|done].
  destruct (String.eqb (provider self) "openai"); [|done].
  unfold _generate_openai_response.
  destruct (acreate _); simpl; [|done]. by rewrite Hinit.
Qed.

End HistoryFacts.

(** C2.  Whatever calls are made on a language model since its creation
    (exchanges for any sessions, failed generations, clearing), the
    history stored for every session identifier has an even length of at
    most 10 messages after each of them. *)
Theorem history_length_invariant (default_provider : string)
    (script : list LLM.call) (session_id : string) :
  Nat.even
    (length (LLM.history session_id
               (LLM.run script (LLM.init default_provider)))) = true
  ∧ (length (LLM.history session_id
               (LLM.run script (LLM.init default_provider))) ≤ 10)%nat.
Proof.
  assert (Hinv := run_preserves script (LLM.init default_provider)
                    (map_Forall_empty _)).
  unfold LLM.history.
  destruct (LLM.conversation_history _ !! session_id) as [h|] eqn:Hh; simpl.
  - apply (Hinv session_id h Hh).
  - split; [reflexivity|lia].
Qed.

(** ** The handler *)

Section HandlerFacts.
Import App.
Implicit Types (st : state) (w : world) (session_id : string).

Lemma receive_frame w delay audio_data st :
  arrival w = Some (delay, Frame audio_data) →
  delay < receive_timeout →
  receive_bytes w st = (Ok audio_data, st).
Proof.
  intros Ha Hd. unfold receive_bytes. rewrite Ha.
  apply Z.ltb_lt in Hd. by rewrite Hd.
Qed.

Lemma receive_silent w st :
  no_frame_within_timeout w →
  receive_bytes w st = (Raise (Exn "TimeoutError" ""), st).
Proof.
  unfold no_frame_within_timeout, receive_bytes.
  destruct (arrival w) as [[delay m]|]; [|done].
  intros Hd. apply Z.ltb_ge in Hd. by rewrite Hd.
Qed.

(** A turn whose transcript is not final. *)
Lemma loop_body_not_final session_id w st delay audio_data processed tr :
  arrival w = Some (delay, Frame audio_data) →
  delay < receive_timeout →
  Audio.process (audio_processor st) audio_data = Ok processed →
  transcribe w processed = Ok tr →
  is_final tr = false →
  loop_body session_id w st
  = (Ok Continue,
     set_session_manager (Session.update_session (now w) session_id)
       (log (CallTranscribe processed) (log (CallProcess audio_data) st))).
Proof.
  intros Ha Hd Hp Ht Hf.
  unfold loop_body, try_except, bind, wrap, try_except.
  rewrite (receive_frame _ _ _ _ Ha Hd).
  unfold call_process. rewrite Hp.
  unfold call_transcribe. rewrite Ht, Hf. reflexivity.
Qed.

Lemma loop_body_final session_id w st delay audio_data processed tr :
  arrival w = Some (delay, Frame audio_data) →
  delay < receive_timeout →
  Audio.process (audio_processor st) audio_data = Ok processed →
  transcribe w processed = Ok tr →
  is_final tr = true →
  closed (websocket st) = false →
  let st2 := after_generation session_id w st audio_data processed tr in
  loop_body session_id w st
  = match (LLM.generate_response (acreate w) (text tr) session_id
             (language_model st)).1 with
    | Raise e =>
        (Raise (Exn "LLMError"
                  ("Language model processing failed: " +:+ exn_str e)), st2)
    | Ok response =>
        match Voice.synthesize (elevenlabs_generate w) response
                (voice_synthesizer st) with
        | Raise e =>
            (Raise (Exn "VoiceSynthesisError"
                      ("Voice synthesis failed: " +:+ exn_str e)),
             log (CallSynthesize response) st2)
        | Ok audio_response =>
            (Ok Continue,
             set_session_manager
               (Session.update_session (now w) session_id)
               (set_websocket
                  (BuildWebSocket false
                     (sent (websocket st) ++ [SentBytes audio_response]))
                  (log (CallSynthesize response) st2)))
        end
    end.
Proof.
  intros Ha Hd Hp Ht Hf Hopen st2. subst st2. unfold after_generation.
  unfold loop_body, try_except, bind, wrap, try_except.
  rewrite (receive_frame _ _ _ _ Ha Hd).
  unfold call_process. rewrite Hp.
  unfold call_transcribe. rewrite Ht, Hf.
  unfold call_generate_response.
  destruct (LLM.generate_response _ _ _ _) as [[response|e] lm']; simpl;
    [|done].
  destruct (Voice.synthesize _ _ _) as [audio_response|e]; simpl; [|done].
  unfold send_bytes, send. simpl. rewrite Hopen. reflexivity.
Qed.

(** A turn in which no frame arrives in time. *)
Lemma loop_body_timeout session_id w st :
  no_frame_within_timeout w →
  closed (websocket st) = false →
  loop_body session_id w st
  = (Ok Break,
     set_websocket
       (BuildWebSocket true
          (sent (websocket st) ++ [SentClose WS_1000_NORMAL_CLOSURE])) st).
Proof.
  intros Hs Hopen.
  unfold loop_body, try_except, bind.
  rewrite (receive_silent _ _ Hs). simpl.
  unfold close. by rewrite Hopen.
Qed.

End HandlerFacts.

Section HandlerInvariants.
Import App.
Implicit Types (st : state) (w : world) (session_id : string).

(** What a turn that lets the loop go on has done. *)
Lemma loop_body_continue session_id w st st' :
  loop_body session_id w st = (Ok Continue, st') →
  closed (websocket st) = false →
  closed (websocket st') = false
  ∧ List.filter is_json (sent (websocket st'))
    = List.filter is_json (sent (websocket st))
  ∧ session_manager st'
    = Session.update_session (now w) session_id (session_manager st).
Proof.
  unfold loop_body, try_except, bind, wrap, try_except, receive_bytes,
    call_process, call_transcribe, call_generate_response, call_synthesize,
    send_bytes, send, close, update_session, ret, raise.
  intros Hrun Hopen.
  repeat (case_match; simplify_eq/=); try done.
  rewrite List.filter_app. simpl. by rewrite app_nil_r.
Qed.

(** A turn changes the language model through [generate_response] or
    not at all. *)
Lemma loop_body_language_model session_id w st :
  language_model (loop_body session_id w st).2 = language_model st
  ∨ ∃ user_input : string,
      language_model (loop_body session_id w st).2
      = (LLM.generate_response (acreate w) user_input session_id
           (language_model st)).2.
Proof.
  unfold loop_body, try_except, bind, wrap, try_except, receive_bytes,
    call_process, call_transcribe, call_generate_response, call_synthesize,
    send_bytes, send, close, update_session, ret, raise.
  repeat (case_match; simplify_eq/=); eauto.
Qed.

End HandlerInvariants.

Section LoopFacts.
Import App.
Implicit Types (st : state) (w : world) (session_id : string).

Lemma while_true_cons session_id w (ws : list world) st :
  while_true session_id (w :: ws) st
  = match loop_body session_id w st with
    | (Ok Continue, st') => while_true session_id ws st'
    | (Ok Break, st') => (Ok CLOSED, st')
    | (Raise e, st') => (Raise e, st')
    end.
Proof.
  cbn [while_true]. unfold bind.
  by destruct (loop_body session_id w st) as [[[]|e] st'].
Qed.

Lemma while_true_app session_id (ws : list world) w st :
  while_true session_id (ws ++ [w]) st
  = match while_true session_id ws st with
    | (Ok AWAITING_FRAME, st1) => while_true session_id [w] st1
    | r => r
    end.
Proof.
  revert st. induction ws as [|w0 ws IH]; intros st.
  - reflexivity.
  - change ((w0 :: ws) ++ [w]) with (w0 :: (ws ++ [w])).
    rewrite !(while_true_cons _ w0).
    destruct (loop_body session_id w0 st) as [[[]|e] st1]; [apply IH|done..].
Qed.

Lemma update_session_lookup now session_id
    (sessions : gmap string Session.session_data) d :
  sessions !! session_id = Some d →
  Session.update_session now session_id sessions !! session_id
  = Some (Session.SessionData (Session.created_at d) now (Session.is_active d)).
Proof.
  intros Hd. unfold Session.update_session. rewrite Hd.
  apply lookup_insert_eq.
Qed.

(** While the handler is waiting for a frame the connection is open,
    no JSON message has been added, and the session is registered. *)
Lemma while_true_awaiting session_id (ws : list world) st st1 :
  while_true session_id ws st = (Ok AWAITING_FRAME, st1) →
  closed (websocket st) = false →
  is_Some (session_manager st !! session_id) →
  closed (websocket st1) = false
  ∧ List.filter is_json (sent (websocket st1))
    = List.filter is_json (sent (websocket st))
  ∧ is_Some (session_manager st1 !! session_id).
Proof.
  revert st. induction ws as [|w ws IH]; intros st Hrun Hopen Hknown.
  - simpl in Hrun. unfold ret in Hrun. by simplify_eq.
  - rewrite while_true_cons in Hrun.
    destruct (loop_body session_id w st) as [[[]|e] st'] eqn:Hturn;
      [|done..].
    destruct (loop_body_continue _ _ _ _ Hturn Hopen) as (Ho & Hj & Hs).
    destruct Hknown as [d Hd].
    destruct (IH st' Hrun Ho) as (Ho1 & Hj1 & Hs1).
    { rewrite Hs. erewrite update_session_lookup by done. eauto. }
    split; [done|]. split; [|done]. by rewrite Hj1.
Qed.

Lemma on_connect_spec session_id now1 now2 st :
  websocket (on_connect session_id now1 now2 st) = BuildWebSocket false []
  ∧ session_manager (on_connect session_id now1 now2 st) !! session_id
    = Some (Session.SessionData now1 now2 true).
Proof.
  split; [done|]. unfold on_connect. simpl.
  apply lookup_insert_eq.
Qed.

End LoopFacts.

(** C1.  When a frame is received and its transcript is not final, the
    turn calls the audio processor and the transcription service and no
    other collaborator (neither generation nor synthesis), sends nothing
    to the client, leaves the language model and its histories as they
    were, touches the session, and the loop goes on with the next frame.
    The touch: the last activity of the session becomes the clock
    reading of the turn, its creation time and its active flag are
    kept, and no other entry of the registry changes. *)
Theorem finality_gating (session_id : string) (w : App.world)
    (ws : list App.world) (st : App.state) (delay : Z)
    (audio_data : list byte) (processed : Audio.ndarray)
    (tr : App.transcript) (d : Session.session_data) :
  App.arrival w = Some (delay, App.Frame audio_data) →
  delay < App.receive_timeout →
  Audio.process (App.audio_processor st) audio_data = Ok processed →
  App.transcribe w processed = Ok tr →
  App.is_final tr = false →
  App.session_manager st !! session_id = Some d →
  ∃ st',
    App.loop_body session_id w st = (Ok App.Continue, st')
    ∧ App.calls st'
      = App.calls st
          ++ [App.CallProcess audio_data; App.CallTranscribe processed]
    ∧ App.websocket st' = App.websocket st
    ∧ App.language_model st' = App.language_model st
    ∧ App.session_manager st' !! session_id
      = Some (Session.SessionData (Session.created_at d) (App.now w)
                (Session.is_active d))
    ∧ (∀ k : string, k ≠ session_id →
         App.session_manager st' !! k = App.session_manager st !! k)
    ∧ App.session_manager st'
      = Session.update_session (App.now w) session_id (App.session_manager st)
    ∧ App.while_true session_id (w :: ws) st
      = App.while_true session_id ws st'.
Proof.
  intros Ha Hd Hp Ht Hf Hknown. eexists. split.
  { by apply (loop_body_not_final _ _ _ _ _ _ _ Ha Hd Hp Ht Hf). }
  split. { simpl. by rewrite <- app_assoc. }
  split; [done|]. split; [done|]. cbn [App.session_manager
    App.set_session_manager App.log].
  split. { by apply update_session_lookup. }
  split.
  { intros k Hk. unfold Session.update_session. rewrite Hknown.
    by rewrite lookup_insert_ne. }
  split; [done|].
  rewrite while_true_cons.
  by rewrite (loop_body_not_final _ _ _ _ _ _ _ Ha Hd Hp Ht Hf).
Qed.

Lemma finality_gating_witness :
  ∃ st',
    App.loop_body "s" Examples.partial
      (App.on_connect "s" 0 0 Examples.started) = (Ok App.Continue, st')
    ∧ App.calls st'
      = [App.CallProcess Examples.frame;
         App.CallTranscribe (Audio.Mono [(x00, x00, x00, x00)])]
    ∧ App.websocket st' = App.BuildWebSocket false []
    ∧ App.session_manager st' !! "s"
      = Some (Session.SessionData 0 1000000 true).
Proof.
  destruct (finality_gating "s" Examples.partial []
              (App.on_connect "s" 0 0 Examples.started) 1000000 Examples.frame
              (Audio.Mono [(x00, x00, x00, x00)]) (App.Transcript "hel" false)
              (Session.SessionData 0 0 true)
              eq_refl eq_refl eq_refl eq_refl eq_refl eq_refl)
    as (st' & Hturn & Hcalls & Hws & _ & Htouch & _).
  exists st'. split; [exact Hturn|]. split; [exact Hcalls|].
  split; [exact Hws|exact Htouch].
Defined.

(** C6.  When the turns so far have left the handler waiting and no
    frame arrives within the receive timeout of 30 seconds, the handler
    terminates: the only message added is a close frame with the
    normal-closure code 1000, no JSON payload has been sent on the
    connection, and the registry holds the session as inactive. *)
Theorem idle_timeout_closes_normally (session_id : string) (now1 now2 : Z)
    (ws : list App.world) (w : App.world) (st st1 : App.state) :
  App.while_true session_id ws (App.on_connect session_id now1 now2 st)
    = (Ok App.AWAITING_FRAME, st1) →
  App.no_frame_within_timeout w →
  ∃ st',
    App.websocket_endpoint session_id now1 now2 (ws ++ [w]) st
      = (App.CLOSED, st')
    ∧ App.websocket st'
      = App.BuildWebSocket true
          (App.sent (App.websocket st1)
             ++ [App.SentClose App.WS_1000_NORMAL_CLOSURE])
    ∧ List.filter App.is_json (App.sent (App.websocket st')) = []
    ∧ ∃ d, App.session_manager st' !! session_id = Some d
           ∧ Session.is_active d = false.
Proof.
  intros Hrun Hsilent.
  destruct (on_connect_spec session_id now1 now2 st) as [Hws Hs].
  destruct (while_true_awaiting _ _ _ _ Hrun) as (Hopen & Hjson & [d Hd]).
  { by rewrite Hws. } { rewrite Hs. eauto. }
  unfold App.websocket_endpoint.
  rewrite while_true_app, Hrun, while_true_cons.
  rewrite (loop_body_timeout _ _ _ Hsilent Hopen).
  eexists. split; [reflexivity|].
  split; [reflexivity|]. split.
  - simpl. rewrite List.filter_app, Hjson, Hws. reflexivity.
  - simpl. rewrite end_session_lookup, decide_True, Hd by done.
    simpl. eauto.
Qed.

Lemma idle_timeout_closes_normally_witness :
  ∃ st',
    App.websocket_endpoint "s" 0 0 ([Examples.hello] ++ [Examples.silence])
      Examples.started = (App.CLOSED, st')
    ∧ App.websocket st'
      = App.BuildWebSocket true [App.SentBytes [x01; x02]; App.SentClose 1000].
Proof.
  destruct (idle_timeout_closes_normally "s" 0 0 [Examples.hello]
              Examples.silence Examples.started
              (App.while_true "s" [Examples.hello]
                 (App.on_connect "s" 0 0 Examples.started)).2
              eq_refl I)
    as (st' & Hrun & Hws & _).
  exists st'. split; [exact Hrun|exact Hws].
Defined.

(** C3, as stated, fails: the stored history of the session differs
    before and after a call of the generation operation. *)
Lemma generate_response_changes_history :
  LLM.history "s"
    (LLM.generate_response (λ _, Ok "hi there") "hello" "s"
       (LLM.initialize (LLM.init "openai"))).2
  ≠ LLM.history "s" (LLM.initialize (LLM.init "openai")).
Proof. vm_compute. discriminate. Qed.

(** C3, amended.  The generation operation itself updates the history:
    a successful call stores, for the session, the previous history
    followed by the user turn and the assistant turn, cut to its last 10
    messages, and changes nothing else of the language model; a failing
    call leaves the language model as it was.  The handler makes no
    update of its own: after a turn the language model is the one it
    started with or the one a generation call returned.  In a turn with
    a final transcript it is the one the generation call returned, and
    the update is in place before synthesis runs: the reply audio is
    sent after it, and when generation or synthesis fails nothing is
    sent. *)
Theorem generation_stores_exchange (session_id : string) (w : App.world)
    (st : App.state) :
  (∀ (acreate : list LLM.message → result string) (user_input : string)
     (lm : LLM.LanguageModel),
     match (LLM.generate_response acreate user_input session_id lm).1 with
     | Ok response =>
         (LLM.generate_response acreate user_input session_id lm).2
         = LLM.Build (LLM.provider lm) (LLM.is_initialized lm)
             (<[session_id :=
                  LLM.extend_and_trim (LLM.history session_id lm) user_input
                    response]> (LLM.conversation_history lm))
     | Raise _ =>
         (LLM.generate_response acreate user_input session_id lm).2 = lm
     end)
  ∧ (App.language_model (App.loop_body session_id w st).2
       = App.language_model st
     ∨ ∃ user_input : string,
         App.language_model (App.loop_body session_id w st).2
         = (LLM.generate_response (App.acreate w) user_input session_id
              (App.language_model st)).2)
  ∧ (∀ (delay : Z) (audio_data : list byte) (processed : Audio.ndarray)
       (tr : App.transcript),
       App.arrival w = Some (delay, App.Frame audio_data) →
       delay < App.receive_timeout →
       Audio.process (App.audio_processor st) audio_data = Ok processed →
       App.transcribe w processed = Ok tr →
       App.is_final tr = true →
       App.closed (App.websocket st) = false →
       App.language_model (App.loop_body session_id w st).2
       = (LLM.generate_response (App.acreate w) (App.text tr) session_id
            (App.language_model st)).2
       ∧ App.sent (App.websocket (App.loop_body session_id w st).2)
         = match (LLM.generate_response (App.acreate w) (App.text tr)
                    session_id (App.language_model st)).1 with
           | Ok response =>
               match Voice.synthesize (App.elevenlabs_generate w) response
                       (App.voice_synthesizer st) with
               | Ok audio_response =>
                   App.sent (App.websocket st)
                     ++ [App.SentBytes audio_response]
               | Raise _ => App.sent (App.websocket st)
               end
           | Raise _ => App.sent (App.websocket st)
           end).
Proof.
  split; [|split].
  - intros acreate user_input lm. apply generate_response_effect.
  - apply loop_body_language_model.
  - intros delay audio_data processed tr Ha Hd Hp Ht Hf Hopen.
    rewrite (loop_body_final _ _ _ _ _ _ _ Ha Hd Hp Ht Hf Hopen).
    unfold App.after_generation.
    destruct (LLM.generate_response _ _ _ _).1 as [response|e]; [|done].
    by destruct (Voice.synthesize _ _ _) as [audio_response|e].
Qed.

Lemma generation_stores_exchange_witness :
  LLM.history "s"
    (App.language_model
       (App.loop_body "s" Examples.synthesis_fault
          (App.on_connect "s" 0 0 Examples.started)).2)
  = [LLM.Message "user" "hello"; LLM.Message "assistant" "hi there"]
  ∧ App.sent
      (App.websocket
         (App.loop_body "s" Examples.synthesis_fault
            (App.on_connect "s" 0 0 Examples.started)).2) = [].
Proof.
  destruct (generation_stores_exchange "s" Examples.synthesis_fault
              (App.on_connect "s" 0 0 Examples.started))
    as (_ & _ & Hturn).
  destruct (Hturn 1000000 Examples.frame (Audio.Mono [(x00, x00, x00, x00)])
              (App.Transcript "hello" true)
              eq_refl eq_refl eq_refl eq_refl eq_refl eq_refl)
    as [Hlm Hsent].
  split.
  - rewrite Hlm. reflexivity.
  - exact Hsent.
Defined.

(** C5: the code at a turn whose frame has three bytes, whatever the
    two floating-point stages of the audio processor do.  The audio
    conditioning raises in [np.frombuffer]; no other collaborator is
    called; the client gets one JSON object and then the close frame
    with code 1011, and the session is inactive.  The object has the key
    ["error"] only: there is no ["type"] entry. *)
Theorem stage_failure_payload_lacks_type (processor : Audio.AudioProcessor) :
  ∃ st',
    App.websocket_endpoint "s" 0 0 [Examples.malformed]
      (Examples.started_with processor) = (App.CLOSED, st')
    ∧ App.sent (App.websocket st')
      = [App.SentJson
           (PyDict
              [("error",
                PyStr "Audio processing failed: buffer size must be a multiple of element size")]);
         App.SentClose App.WS_1011_INTERNAL_ERROR]
    ∧ dict_get "type"
        [("error",
          PyStr "Audio processing failed: buffer size must be a multiple of element size")]
      = None
    ∧ App.calls st' = [App.CallProcess Examples.short_frame]
    ∧ App.session_manager st' !! "s" = Some (Session.SessionData 0 0 false).
Proof.
  eexists. split; [reflexivity|]. split; [reflexivity|].
  split; [reflexivity|]. split; reflexivity.
Qed.

(** ** The health check *)

Section HealthFacts.
Import App.

Lemma all_healthy_spec (components : list (string * pyval)) :
  all_healthy components = true
  ↔ ∀ (name : string) (status : pyval),
      (name, status) ∈ components →
      reports_status status = true → status_healthy status = true.
Proof.
  unfold all_healthy. rewrite forallb_forall. split.
  - intros Hall name status Hin Hrep. apply Hall, filter_In. split; [|done].
    apply list_elem_of_In, list_elem_of_fmap. by exists (name, status).
  - intros Hall status [Hin Hrep]%filter_In.
    apply list_elem_of_In, list_elem_of_fmap in Hin as [[name s] [-> Hin]].
    by apply (Hall name).
Qed.

Lemma provider_report_healthy (initialized : bool) (provider : string) :
  status_healthy
    (PyDict [("status",
              PyStr (if initialized then "healthy" else "not_initialized"));
             ("provider", PyStr provider)]) = initialized.
Proof. by destruct initialized. Qed.

End HealthFacts.

(** C4, as stated, fails: with the three providers reporting
    ["healthy"], the ["sessions"] component has no ["status"] entry and
    the overall result is ["healthy"] nevertheless. *)
Lemma absent_status_does_not_degrade :
  ("sessions", PyDict [("active_sessions", PyInt 0)])
    ∈ App.components_status (PyDict [("status", PyStr "healthy")])
        Examples.started
  ∧ dict_get "status" [("active_sessions", PyInt 0)] = None
  ∧ App.overall
      (App.health_check (Ok (PyDict [("status", PyStr "healthy")]))
         "2026-01-01T00:00:00" Examples.started)
    ≠ Some (PyStr "degraded").
Proof.
  split; [|split].
  - vm_compute. do 3 right. left.
  - reflexivity.
  - vm_compute. discriminate.
Qed.

(** C4, amended.  The overall result is ["healthy"] exactly when every
    component that is a dictionary with a ["status"] entry has the
    string ["healthy"] there, and it is ["degraded"] otherwise; a
    component without a ["status"] entry, such as ["sessions"], is left
    out of the verdict.  For this process: the result is ["healthy"]
    exactly when the language model and the voice synthesizer are
    initialized and the report of the speech recognizer, if it has a
    ["status"] entry, says ["healthy"]. *)
Theorem health_verdict (speech : pyval) (timestamp : string) (st : App.state) :
  (App.overall (App.health_check (Ok speech) timestamp st)
     = Some (PyStr "healthy")
   ∨ App.overall (App.health_check (Ok speech) timestamp st)
     = Some (PyStr "degraded"))
  ∧ (App.overall (App.health_check (Ok speech) timestamp st)
       = Some (PyStr "healthy")
     ↔ ∀ (name : string) (status : pyval),
         (name, status) ∈ App.components_status speech st →
         App.reports_status status = true →
         App.status_healthy status = true)
  ∧ (App.overall (App.health_check (Ok speech) timestamp st)
       = Some (PyStr "healthy")
     ↔ (App.reports_status speech = true → App.status_healthy speech = true)
       ∧ LLM.is_initialized (App.language_model st) = true
       ∧ Voice.is_initialized (App.voice_synthesizer st) = true).
Proof.
  assert (Hv : App.overall (App.health_check (Ok speech) timestamp st)
               = Some (PyStr (if App.all_healthy
                                  (App.components_status speech st)
                              then "healthy" else "degraded"))) by done.
  rewrite Hv. clear Hv.
  assert (Hiff : Some (PyStr (if App.all_healthy
                                   (App.components_status speech st)
                               then "healthy" else "degraded"))
                 = Some (PyStr "healthy")
                 ↔ App.all_healthy (App.components_status speech st) = true).
  { by destruct (App.all_healthy _). }
  split; [|split].
  - destruct (App.all_healthy _); [by left|by right].
  - rewrite Hiff. apply all_healthy_spec.
  - rewrite Hiff. unfold App.all_healthy, App.components_status.
    unfold LLM.health_check, Voice.health_check.
    cbn [fmap list_fmap snd List.filter].
    change (App.reports_status (PyDict [("status", _); ("provider", _)]))
      with true.
    cbn [App.reports_status dict_contains dict_get String.eqb Ascii.eqb
           Bool.eqb].
    destruct (App.reports_status speech); cbn [forallb];
      rewrite !provider_report_healthy, !andb_true_iff;
      intuition (try congruence).
Qed.

Lemma health_verdict_witness :
  App.overall
    (App.health_check (Ok (PyDict [("status", PyStr "healthy")]))
       "2026-01-01T00:00:00" Examples.loaded)
  = Some (PyStr "degraded").
Proof.
  destruct (health_verdict (PyDict [("status", PyStr "healthy")])
              "2026-01-01T00:00:00" Examples.loaded)
    as ([Hh|Hd] & _ & Hiff).
  - apply Hiff in Hh as (_ & Hllm & _). discriminate Hllm.
  - exact Hd.
Defined.

(** ** The audio conditioner *)

Section AudioFacts.
Import Audio.

Lemma length_samples_of (audio_data : list byte) :
  length (samples_of audio_data) = (length audio_data / 4)%nat.
Proof.
  remember (length audio_data) as n eqn:Hn. revert audio_data Hn.
  induction n as [n IH] using lt_wf_ind. intros audio_data ->.
  destruct audio_data as [|b0 [|b1 [|b2 [|b3 rest]]]]; try reflexivity.
  cbn [samples_of length]. rewrite (IH (length rest)) by (simpl; lia || done).
  change (S (S (S (S (length rest))))) with (4 + length rest)%nat.
  replace (4 + length rest)%nat with (length rest + 1 * 4)%nat by lia.
  rewrite Nat.div_add by lia. lia.
Qed.

End AudioFacts.

(** C9, as stated, fails: on a buffer of 3 bytes the conditioner fails,
    but with numpy's [ValueError], which it re-raises as it is, not with
    a [MalformedAudioError]. *)
Lemma malformed_buffer_raises_ValueError :
  ∃ e, Audio.process Examples.mono [x00; x00; x00] = Raise e
       ∧ exn_class e = "ValueError"
       ∧ exn_class e ≠ "MalformedAudioError".
Proof.
  eexists. split; [reflexivity|]. split; [reflexivity|discriminate].
Qed.

(** C9, amended.  A buffer whose length is not a multiple of the 4-byte
    sample width makes the conditioner fail with [ValueError]; with two
    channels a buffer of a whole but odd number of samples (its length a
    multiple of 4 and not of 8) fails with [ValueError] too.  These are
    the only checks of the shape: for any other buffer, and for any
    channel count other than 2 once the length is a multiple of 4, the
    outcome is that of the noise gate and the gain control on the
    decoded samples. *)
Theorem process_rejects_malformed (self : Audio.AudioProcessor)
    (audio_data : list byte) :
  ((length audio_data mod 4 ≠ 0)%nat →
   ∃ e, Audio.process self audio_data = Raise e ∧ exn_class e = "ValueError")
  ∧ (Audio.channels self = 2 →
     (length audio_data mod 4 = 0)%nat →
     (length audio_data mod 8 ≠ 0)%nat →
     ∃ e, Audio.process self audio_data = Raise e ∧ exn_class e = "ValueError")
  ∧ (Audio.channels self = 2 →
     (length audio_data mod 8 = 0)%nat →
     Audio.process self audio_data
     = match Audio._reduce_noise self
               (Audio.Stereo (Audio.frames_of (Audio.samples_of audio_data)))
       with
       | Ok processed_audio => Audio._apply_agc self processed_audio
       | Raise e => Raise e
       end)
  ∧ (Audio.channels self ≠ 2 →
     (length audio_data mod 4 = 0)%nat →
     Audio.process self audio_data
     = match Audio._reduce_noise self
               (Audio.Mono (Audio.samples_of audio_data))
       with
       | Ok processed_audio => Audio._apply_agc self processed_audio
       | Raise e => Raise e
       end).
Proof.
  unfold Audio.process, Audio.frombuffer, Audio.reshape_2.
  split; [|split; [|split]].
  - intros Hmod. apply Nat.eqb_neq in Hmod. rewrite Hmod. eauto.
  - intros Hch H4 H8. apply Nat.eqb_eq in H4. rewrite H4, Hch.
    change (2 =? 2) with true. cbv iota. rewrite length_samples_of.
    apply Nat.eqb_eq in H4.
    assert (Hodd : ((length audio_data / 4) mod 2 ≠ 0)%nat).
    { intros Heven. apply H8.
      rewrite (Nat.div_mod_eq (length audio_data) 4), H4, Nat.add_0_r.
      rewrite (Nat.div_mod_eq (length audio_data / 4) 2), Heven, Nat.add_0_r.
      rewrite Nat.mul_assoc. change (4 * 2)%nat with 8%nat.
      by rewrite Nat.mul_comm, Nat.Div0.mod_mul. }
    apply Nat.eqb_neq in Hodd. rewrite Hodd. eauto.
  - intros Hch H8.
    assert (H4 : (length audio_data mod 4 = 0)%nat).
    { rewrite (Nat.div_mod_eq (length audio_data) 8), H8, Nat.add_0_r.
      change 8%nat with (4 * 2)%nat at 1. rewrite <- Nat.mul_assoc.
      by rewrite Nat.mul_comm, Nat.Div0.mod_mul. }
    assert (Heven : ((length audio_data / 4) mod 2 = 0)%nat).
    { rewrite (Nat.div_mod_eq (length audio_data) 8), H8, Nat.add_0_r.
      change 8%nat with (4 * 2)%nat at 1. rewrite <- Nat.mul_assoc.
      rewrite Nat.mul_comm, Nat.div_mul by lia.
      by rewrite Nat.mul_comm, Nat.Div0.mod_mul. }
    apply Nat.eqb_eq in H4, Heven. rewrite H4, Hch.
    change (2 =? 2) with true. cbv iota. by rewrite length_samples_of, Heven.
  - intros Hch H4. apply Nat.eqb_eq in H4. rewrite H4.
    apply Z.eqb_neq in Hch. by rewrite Hch.
Qed.

Lemma process_rejects_malformed_witness :
  ∃ e, Audio.process (Audio.Build 2 Ok Ok) [x00; x00; x00; x00] = Raise e
       ∧ exn_class e = "ValueError".
Proof.
  apply (proj1 (proj2 (process_rejects_malformed (Audio.Build 2 Ok Ok)
                         [x00; x00; x00; x00])));
    [reflexivity|reflexivity|simpl; lia].
Defined.

(** ** Stage failures *)

Section StageFailure.
Import App.
Implicit Types (st : state) (w : world) (session_id : string).

(** A turn that received a frame and raised has failed in one of the
    four stages; it has sent nothing and has left the registry as it
    was. *)
Lemma loop_body_stage_failure session_id w st delay audio_data e st' :
  arrival w = Some (delay, Frame audio_data) →
  delay < receive_timeout →
  closed (websocket st) = false →
  loop_body session_id w st = (Raise e, st') →
  websocket st' = websocket st
  ∧ session_manager st' = session_manager st
  ∧ exn_class e ∈ ["AudioProcessingError"; "TranscriptionError";
                    "LLMError"; "VoiceSynthesisError"].
Proof.
  intros Ha Hd Hopen.
  unfold loop_body, try_except, bind, wrap, try_except.
  rewrite (receive_frame _ _ _ _ Ha Hd).
  unfold call_process, call_transcribe, call_generate_response,
    call_synthesize, send_bytes, send, close, update_session, ret, raise.
  intros Hrun.
  repeat (case_match; simplify_eq/=); try done.
  all: split; [done|]; split; [done|].
  all: apply list_elem_of_In; simpl. all: try tauto.
  congruence.
Qed.

(** What the client and the registry see of a failed stage. *)
Lemma stage_failure_report session_id now1 now2 (ws : list world) w st st1
    delay audio_data e st2 :
  while_true session_id ws (on_connect session_id now1 now2 st)
    = (Ok AWAITING_FRAME, st1) →
  arrival w = Some (delay, Frame audio_data) →
  delay < receive_timeout →
  loop_body session_id w st1 = (Raise e, st2) →
  ∃ st',
    websocket_endpoint session_id now1 now2 (ws ++ [w]) st = (CLOSED, st')
    ∧ websocket st'
      = BuildWebSocket true
          (sent (websocket st1)
             ++ [SentJson (PyDict [("error", PyStr (exn_str e))]);
                 SentClose WS_1011_INTERNAL_ERROR])
    ∧ ∃ d, session_manager st' !! session_id = Some d
           ∧ Session.is_active d = false.
Proof.
  intros Hrun Ha Hd Hturn.
  destruct (on_connect_spec session_id now1 now2 st) as [Hws Hs].
  destruct (while_true_awaiting _ _ _ _ Hrun) as (Hopen & _ & [d Hd1]).
  { by rewrite Hws. } { rewrite Hs. eauto. }
  destruct (loop_body_stage_failure _ _ _ _ _ _ _ Ha Hd Hopen Hturn)
    as (Hws2 & Hs2 & _).
  unfold websocket_endpoint.
  rewrite while_true_app, Hrun, while_true_cons, Hturn.
  eexists. split; [reflexivity|].
  unfold finally, on_exception, try_except, bind, send_json, send, close.
  simpl. rewrite Hws2, Hopen. simpl. split.
  - by rewrite <- app_assoc.
  - rewrite end_session_lookup, decide_True, Hs2, Hd1 by done.
    simpl. eauto.
Qed.

End StageFailure.

(** ** The handler as a whole *)

Section EndpointFacts.
Import App.
Implicit Types (st : state) (w : world) (session_id : string).

(** A frame that [np.frombuffer] rejects is reported by the handler as
    an [AudioProcessingError]. *)
Lemma malformed_frame_reported session_id w st delay audio_data :
  arrival w = Some (delay, Frame audio_data) →
  delay < receive_timeout →
  (length audio_data mod 4 ≠ 0)%nat →
  loop_body session_id w st
  = (Raise (Exn "AudioProcessingError"
              "Audio processing failed: buffer size must be a multiple of element size"),
     log (CallProcess audio_data) st).
Proof.
  intros Ha Hd Hmod.
  unfold loop_body, try_except, bind, wrap, try_except.
  rewrite (receive_frame _ _ _ _ Ha Hd).
  unfold call_process, Audio.process, Audio.frombuffer.
  apply Nat.eqb_neq in Hmod. by rewrite Hmod.
Qed.

(** The stored histories keep their shape through a turn, and through
    the turns of a connection. *)
Lemma loop_body_history_shape session_id w st :
  map_Forall (λ _ h, LLM.paired_and_capped h)
    (LLM.conversation_history (language_model st)) →
  map_Forall (λ _ h, LLM.paired_and_capped h)
    (LLM.conversation_history (language_model (loop_body session_id w st).2)).
Proof.
  intros Hinv.
  destruct (loop_body_language_model session_id w st) as [->|[u ->]]; [done|].
  apply (exec_preserves (LLM.Generate (acreate w) u session_id) _ Hinv).
Qed.

Lemma while_true_history_shape session_id (ws : list world) st :
  map_Forall (λ _ h, LLM.paired_and_capped h)
    (LLM.conversation_history (language_model st)) →
  map_Forall (λ _ h, LLM.paired_and_capped h)
    (LLM.conversation_history
       (language_model (while_true session_id ws st).2)).
Proof.
  revert st. induction ws as [|w ws IH]; intros st Hinv; [done|].
  rewrite while_true_cons.
  assert (Hturn := loop_body_history_shape session_id w st Hinv).
  destruct (loop_body session_id w st) as [[[]|e] st']; [by apply IH|done..].
Qed.

Lemma finally_language_model session_id st :
  language_model (finally session_id st) = language_model st.
Proof.
  unfold finally, try_except, close. simpl.
  by destruct (closed (websocket st)).
Qed.

Lemma on_exception_language_model e st :
  language_model (on_exception e st) = language_model st.
Proof.
  unfold on_exception, try_except, bind, send_json, send, close.
  by destruct (closed (websocket st)).
Qed.

Lemma websocket_endpoint_history_shape session_id now1 now2
    (ws : list world) st :
  map_Forall (λ _ h, LLM.paired_and_capped h)
    (LLM.conversation_history (language_model st)) →
  map_Forall (λ _ h, LLM.paired_and_capped h)
    (LLM.conversation_history
       (language_model (websocket_endpoint session_id now1 now2 ws st).2)).
Proof.
  intros Hinv. unfold websocket_endpoint.
  assert (Hrun := while_true_history_shape session_id ws
                    (on_connect session_id now1 now2 st) Hinv).
  destruct (while_true _ _ _) as [[[]|e] st']; cbn [snd] in *.
  - done.
  - by rewrite finally_language_model.
  - by rewrite finally_language_model, on_exception_language_model.
Qed.

End EndpointFacts.

(** The scenario of one exchange: a frame of silence, the transcript
    "hello", the reply "hi there" and the audio bytes 01 02.  The
    client receives exactly these bytes, the history of the session
    holds the two turns, and the handler waits for the next frame. *)
Example end_to_end_scenario :
  ∃ st',
    App.websocket_endpoint "s" 0 0 [Examples.hello] Examples.started
      = (App.AWAITING_FRAME, st')
    ∧ App.sent (App.websocket st') = [App.SentBytes [x01; x02]]
    ∧ LLM.history "s" (App.language_model st')
      = [LLM.Message "user" "hello"; LLM.Message "assistant" "hi there"]
    ∧ App.session_manager st' !! "s"
      = Some (Session.SessionData 0 1000000 true).
Proof.
  eexists. split; [reflexivity|]. split; [reflexivity|].
  split; reflexivity.
Qed.

(** * Further properties *)

(** ** The registry: counting and sweeping *)

Section RegistryFacts.
Import Session.
Implicit Types (sessions : gmap string session_data) (d : session_data).

Lemma filter_length_Permutation {A} (f : A → bool) (l l' : list A) :
  l ≡ₚ l' → length (List.filter f l) = length (List.filter f l').
Proof.
  induction 1 as [|x l l' _ IH|x y l|l1 l2 l3 _ IH1 _ IH2]; simpl.
  - done.
  - destruct (f x); simpl; by rewrite IH.
  - by destruct (f x), (f y).
  - by rewrite IH1.
Qed.

Lemma count_insert_fresh sessions (i : string) d :
  sessions !! i = None →
  get_active_sessions_count (<[i := d]> sessions)
  = get_active_sessions_count sessions + (if is_active d then 1 else 0).
Proof.
  intros Hi. unfold get_active_sessions_count.
  rewrite (filter_length_Permutation _ _ _ (map_to_list_insert _ _ d Hi)).
  simpl. destruct (is_active d); simpl; lia.
Qed.

Lemma count_delete sessions (i : string) d :
  sessions !! i = Some d →
  get_active_sessions_count (delete i sessions)
  = get_active_sessions_count sessions - (if is_active d then 1 else 0).
Proof.
  intros Hi.
  rewrite <- (insert_delete_id sessions i d Hi) at 2.
  rewrite count_insert_fresh by apply lookup_delete_eq. lia.
Qed.

Lemma count_insert_known sessions (i : string) d d' :
  sessions !! i = Some d →
  get_active_sessions_count (<[i := d']> sessions)
  = get_active_sessions_count sessions
    - (if is_active d then 1 else 0) + (if is_active d' then 1 else 0).
Proof.
  intros Hi. rewrite <- insert_delete_eq.
  rewrite count_insert_fresh by apply lookup_delete_eq.
  by rewrite (count_delete _ _ _ Hi).
Qed.

Lemma count_foldl_delete (l : list string) sessions :
  (∀ i d, i ∈ l → sessions !! i = Some d → is_active d = false) →
  get_active_sessions_count
    (foldl (λ m session_id, delete session_id m) sessions l)
  = get_active_sessions_count sessions.
Proof.
  revert sessions. induction l as [|i l IH]; intros sessions Hl; [done|].
  cbn [foldl]. rewrite IH.
  - destruct (sessions !! i) as [d|] eqn:Hi.
    + rewrite (count_delete _ _ _ Hi), (Hl i d); [lia|by left|done].
    + by rewrite delete_id.
  - intros k d Hk Hd. apply (Hl k d); [by right|].
    destruct (decide (k = i)) as [->|Hne].
    + by rewrite lookup_delete_eq in Hd.
    + by rewrite lookup_delete_ne in Hd.
Qed.

Lemma update_session_lookup_full now (i k : string) sessions :
  update_session now i sessions !! k
  = if decide (k = i)
    then (λ d, SessionData (created_at d) now (is_active d)) <$> sessions !! k
    else sessions !! k.
Proof.
  unfold update_session. case_decide as Hk.
  - subst k. destruct (sessions !! i) as [d|] eqn:Hs.
    + by rewrite lookup_insert_eq.
    + by rewrite Hs.
  - destruct (sessions !! i); [|done]. by rewrite lookup_insert_ne.
Qed.

End RegistryFacts.

(** X1.  The number of active sessions follows the life of the
    sessions: creating a session under an unused identifier adds one,
    ending a session takes one off when the session was active and
    changes nothing when it was already ended or is unknown, and an
    activity update never changes it. *)
Theorem active_count_lifecycle
    (sessions : gmap string Session.session_data) (session_id : string)
    (now1 now2 : Z) :
  (sessions !! session_id = None →
   Session.get_active_sessions_count
     (Session.create_session session_id now1 now2 sessions)
   = Session.get_active_sessions_count sessions + 1)
  ∧ (∀ d, sessions !! session_id = Some d →
       Session.get_active_sessions_count
         (Session.end_session session_id sessions)
       = Session.get_active_sessions_count sessions
         - (if Session.is_active d then 1 else 0))
  ∧ (sessions !! session_id = None →
     Session.get_active_sessions_count
       (Session.end_session session_id sessions)
     = Session.get_active_sessions_count sessions)
  ∧ Session.get_active_sessions_count
      (Session.update_session now1 session_id sessions)
    = Session.get_active_sessions_count sessions.
Proof.
  split; [|split; [|split]].
  - intros Hfresh. unfold Session.create_session.
    by rewrite count_insert_fresh.
  - intros d Hd. unfold Session.end_session. rewrite Hd.
    rewrite (count_insert_known _ _ _ _ Hd). simpl. lia.
  - intros Hfresh. unfold Session.end_session. by rewrite Hfresh.
  - unfold Session.update_session.
    destruct (sessions !! session_id) as [d|] eqn:Hd; [|done].
    rewrite (count_insert_known _ _ _ _ Hd). simpl. lia.
Qed.

Lemma active_count_lifecycle_witness :
  Session.get_active_sessions_count
    (Session.create_session "a" 1 2 Session.init)
  = Session.get_active_sessions_count Session.init + 1.
Proof.
  apply (proj1 (active_count_lifecycle Session.init "a" 1 2)).
  reflexivity.
Defined.

(** X2.  A sweep only takes entries away and takes no active one: what
    it leaves is the registry restricted to the entries that are active
    or not yet too old, each with its data unchanged, and the number of
    active sessions is the same before and after. *)
Theorem sweep_keeps_active_sessions
    (sessions : gmap string Session.session_data) (now M : Z) :
  Session.cleanup_inactive_sessions now M sessions
  = filter (λ kv, Session.to_remove now M kv.2 = false) sessions
  ∧ Session.cleanup_inactive_sessions now M sessions ⊆ sessions
  ∧ Session.get_active_sessions_count
      (Session.cleanup_inactive_sessions now M sessions)
    = Session.get_active_sessions_count sessions.
Proof.
  assert (Hfilter : Session.cleanup_inactive_sessions now M sessions
                    = filter (λ kv, Session.to_remove now M kv.2 = false)
                        sessions).
  { apply map_eq. intros k. rewrite cleanup_lookup.
    destruct (sessions !! k) as [d|] eqn:Hk.
    - destruct (Session.to_remove now M d) eqn:Hrm; symmetry.
      + apply map_lookup_filter_None. right. intros d' Hd'. simpl.
        simplify_eq. by rewrite Hrm.
      + by apply map_lookup_filter_Some.
    - symmetry. apply map_lookup_filter_None. by left. }
  split; [done|]. split.
  - rewrite Hfilter. apply map_filter_subseteq.
  - unfold Session.cleanup_inactive_sessions. apply count_foldl_delete.
    intros i d Hi Hd.
    apply elem_of_sessions_to_remove in Hi as (d' & Hd' & Hrm).
    simplify_eq. by apply to_remove_spec in Hrm as [? _].
Qed.

(** X3.  Sweeps compose: when the second sweep reaches at least as far
    as the first (its time minus its maximal age is not earlier), doing
    both gives what the second gives alone.  In particular a sweep
    repeated at the same time with the same maximal age changes nothing
    more. *)
Theorem sweep_compose (sessions : gmap string Session.session_data)
    (now1 M1 now2 M2 : Z) :
  now1 - Session.timedelta_minutes M1 ≤ now2 - Session.timedelta_minutes M2 →
  Session.cleanup_inactive_sessions now2 M2
    (Session.cleanup_inactive_sessions now1 M1 sessions)
  = Session.cleanup_inactive_sessions now2 M2 sessions
  ∧ Session.cleanup_inactive_sessions now2 M2
      (Session.cleanup_inactive_sessions now2 M2 sessions)
    = Session.cleanup_inactive_sessions now2 M2 sessions.
Proof.
  intros Hle. split; apply map_eq; intros k; rewrite !cleanup_lookup.
  - destruct (sessions !! k) as [d|]; [|done].
    destruct (Session.to_remove now1 M1 d) eqn:H1; [|done].
    apply to_remove_spec in H1 as [Hact Hlt].
    assert (Session.to_remove now2 M2 d = true) as ->; [|done].
    apply to_remove_spec. split; [done|lia].
  - destruct (sessions !! k) as [d|]; [|done].
    by destruct (Session.to_remove now2 M2 d) eqn:H2; [|rewrite H2].
Qed.

Lemma sweep_compose_witness :
  Session.cleanup_inactive_sessions 200000000 1
    (Session.cleanup_inactive_sessions 100000000 1
       (Session.end_session "s" (Session.create_session "s" 0 0 Session.init)))
  = Session.cleanup_inactive_sessions 200000000 1
      (Session.end_session "s" (Session.create_session "s" 0 0 Session.init)).
Proof.
  apply (sweep_compose
           (Session.end_session "s"
              (Session.create_session "s" 0 0 Session.init))
           100000000 1 200000000 1).
  vm_compute. discriminate.
Defined.

(** X4.  Ending a session twice is the same as ending it once, ending
    an unknown session changes nothing, and sessions can be ended in
    any order. *)
Theorem end_session_idempotent (sessions : gmap string Session.session_data)
    (a b : string) :
  Session.end_session a (Session.end_session a sessions)
  = Session.end_session a sessions
  ∧ (sessions !! a = None → Session.end_session a sessions = sessions)
  ∧ Session.end_session a (Session.end_session b sessions)
    = Session.end_session b (Session.end_session a sessions).
Proof.
  split; [|split].
  - apply map_eq. intros k. rewrite !end_session_lookup.
    case_decide; [|done]. by destruct (sessions !! k).
  - intros Ha. unfold Session.end_session. by rewrite Ha.
  - apply map_eq. intros k. rewrite !end_session_lookup.
    repeat case_decide; try done.
Qed.

Lemma end_session_idempotent_witness :
  Session.end_session "ghost" Session.init = Session.init.
Proof.
  apply (proj1 (proj2 (end_session_idempotent Session.init "ghost" "ghost"))).
  reflexivity.
Defined.

(** X5.  No call other than the creation of a session under the same
    identifier brings an ended session back: through any sequence of
    activity updates, endings and sweeps, and creations of other
    sessions, a session that is inactive stays inactive, with its
    creation time, until a sweep removes it. *)
Theorem ended_session_stays_inactive
    (script : list (Z * Session.call))
    (sessions : gmap string Session.session_data) (session_id : string)
    (d : Session.session_data) :
  Forall (λ tc, tc.2 ≠ Session.Create session_id) script →
  sessions !! session_id = Some d →
  Session.is_active d = false →
  Session.run script sessions !! session_id = None
  ∨ ∃ d', Session.run script sessions !! session_id = Some d'
          ∧ Session.is_active d' = false
          ∧ Session.created_at d' = Session.created_at d.
Proof.
  revert sessions d.
  induction script as [|[now c] script IH]; intros sessions d Hscript Hd Hact.
  - right. by exists d.
  - apply Forall_cons in Hscript as [Hc Hscript]. simpl in Hc.
    change (Session.run ((now, c) :: script) sessions)
      with (Session.run script (Session.exec now c sessions)).
    assert (Session.exec now c sessions !! session_id = None
            ∨ ∃ d', Session.exec now c sessions !! session_id = Some d'
                    ∧ Session.is_active d' = false
                    ∧ Session.created_at d' = Session.created_at d)
      as [Hgone|(d' & Hd' & Hact' & Hcr)].
    { destruct c as [k|k|k|M]; simpl.
      - right. exists d. unfold Session.create_session.
        rewrite lookup_insert_ne by congruence. done.
      - right. rewrite update_session_lookup_full, Hd. simpl.
        case_decide; eauto.
      - right. rewrite end_session_lookup, Hd. simpl.
        case_decide; eauto.
      - rewrite cleanup_lookup, Hd.
        destruct (Session.to_remove now M d); eauto. }
    + left. clear IH Hd. revert Hgone Hscript.
      generalize (Session.exec now c sessions). clear sessions.
      induction script as [|[now' c'] script IH']; intros sessions Hgone Hs.
      * done.
      * apply Forall_cons in Hs as [Hc' Hs]. simpl in Hc'.
        change (Session.run ((now', c') :: script) sessions)
          with (Session.run script (Session.exec now' c' sessions)).
        apply IH'; [|done].
        destruct c' as [k|k|k|M]; simpl.
        -- unfold Session.create_session.
           rewrite lookup_insert_ne by congruence. done.
        -- by rewrite update_session_lookup_full, Hgone; case_decide.
        -- by rewrite end_session_lookup, Hgone; case_decide.
        -- by rewrite cleanup_lookup, Hgone.
    + destruct (IH _ d' Hscript Hd' Hact') as [?|(d'' & ? & ? & Hcr')];
        [by left|].
      right. exists d''. split; [done|]. split; [done|congruence].
Qed.

Lemma ended_session_stays_inactive_witness :
  Session.run [(5, Session.Touch "s"); (6, Session.Create "t")]
    (Session.end_session "s" (Session.create_session "s" 0 0 Session.init))
    !! "s" = None
  ∨ ∃ d', Session.run [(5, Session.Touch "s"); (6, Session.Create "t")]
            (Session.end_session "s"
               (Session.create_session "s" 0 0 Session.init)) !! "s"
          = Some d'
          ∧ Session.is_active d' = false
          ∧ Session.created_at d'
            = Session.created_at (Session.SessionData 0 0 false).
Proof.
  apply (ended_session_stays_inactive
           [(5, Session.Touch "s"); (6, Session.Create "t")]
           (Session.end_session "s"
              (Session.create_session "s" 0 0 Session.init))
           "s" (Session.SessionData 0 0 false)).
  - repeat constructor; simpl; discriminate.
  - reflexivity.
  - reflexivity.
Defined.

(** X6.  An activity update of a known session sets its last activity
    to the clock reading and keeps its creation time and its active
    flag; it adds and removes no identifier and leaves the other
    sessions alone; for an unknown identifier it does nothing. *)
Theorem update_session_frame (sessions : gmap string Session.session_data)
    (session_id : string) (now : Z) :
  (∀ d, sessions !! session_id = Some d →
     Session.update_session now session_id sessions !! session_id
     = Some (Session.SessionData (Session.created_at d) now
               (Session.is_active d)))
  ∧ (sessions !! session_id = None →
     Session.update_session now session_id sessions = sessions)
  ∧ (∀ k : string, k ≠ session_id →
       Session.update_session now session_id sessions !! k = sessions !! k)
  ∧ dom (Session.update_session now session_id sessions) = dom sessions.
Proof.
  split; [|split; [|split]].
  - intros d Hd. by rewrite update_session_lookup_full, decide_True, Hd.
  - intros Hnone. unfold Session.update_session. by rewrite Hnone.
  - intros k Hk. by rewrite update_session_lookup_full, decide_False.
  - apply set_eq. intros k. rewrite !elem_of_dom, update_session_lookup_full.
    case_decide; [|done]. by rewrite fmap_is_Some.
Qed.

Lemma update_session_frame_witness :
  Session.update_session 9 "ghost" Session.init = Session.init.
Proof.
  apply (proj1 (proj2 (update_session_frame Session.init "ghost" 9))).
  reflexivity.
Defined.

(** ** The language model: what a history holds *)

Section ConversationFacts.
Import LLM Conversation.

Lemma extend_and_trim_closed (h : list message) (u r : string) :
  extend_and_trim h u r
  = drop (length h - 8) h ++ [Message "user" u; Message "assistant" r].
Proof.
  unfold extend_and_trim. rewrite length_app. cbn [length].
  destruct (Nat.ltb_spec 10 (length h + 2)) as [Hlt|Hge].
  - replace (length h + 2 - 10)%nat with (length h - 8)%nat by lia.
    apply drop_app_le. lia.
  - replace (length h - 8)%nat with 0%nat by lia. done.
Qed.

Lemma pair_ind {A} (P : list A → Prop) :
  P [] → (∀ x, P [x]) → (∀ x y l, P l → P (x :: y :: l)) → ∀ l, P l.
Proof.
  intros Hnil Hone Hstep l.
  assert (P l ∧ ∀ x, P (x :: l)) as [? _]; [|done].
  induction l as [|y l [IH1 IH2]]; [by split|].
  split; [apply IH2|]. intros x. by apply Hstep.
Qed.

Lemma alternating_even (h : list message) :
  alternating h = true → ∃ k, length h = (2 * k)%nat.
Proof.
  induction h as [| |m1 m2 h IH] using pair_ind; simpl.
  - by exists 0%nat.
  - done.
  - rewrite !andb_true_iff. intros [_ [k Hk]%IH].
    exists (S k). simpl. lia.
Qed.

Lemma alternating_app (h p : list message) :
  alternating h = true → alternating p = true → alternating (h ++ p) = true.
Proof.
  induction h as [| |m1 m2 h IH] using pair_ind; simpl; [done..|].
  rewrite !andb_true_iff. intros [? ?] ?. split; [done|by apply IH].
Qed.

Lemma alternating_drop (k : nat) (h : list message) :
  alternating h = true → alternating (drop (2 * k) h) = true.
Proof.
  revert h. induction k as [|k IH]; intros h Hh; [done|].
  replace (2 * S k)%nat with (S (S (2 * k))) by lia.
  destruct h as [|m1 [|m2 h]]; [done..|].
  simpl in Hh. rewrite !andb_true_iff in Hh. apply IH, Hh.
Qed.

Lemma extend_and_trim_alternating (h : list message) (u r : string) :
  alternating h = true → alternating (extend_and_trim h u r) = true.
Proof.
  intros Hh. rewrite extend_and_trim_closed.
  apply alternating_app; [|done].
  destruct (alternating_even h Hh) as [k Hk]. rewrite Hk.
  replace (2 * k - 8)%nat with (2 * (k - 4))%nat by lia.
  by apply alternating_drop.
Qed.

Lemma exec_preserves_alternating (c : call) (self : LanguageModel) :
  map_Forall (λ _ h, alternating h = true) (conversation_history self) →
  map_Forall (λ _ h, alternating h = true)
    (conversation_history (exec c self)).
Proof.
  intros Hinv. destruct c as [|acreate user_input session_id|session_id]; simpl.
  - done.
  - assert (He := generate_response_effect acreate user_input session_id self).
    destruct (generate_response acreate user_input session_id self).1;
      rewrite He; [|done]. simpl.
    apply map_Forall_insert_2; [|done].
    apply extend_and_trim_alternating. unfold history.
    destruct (conversation_history self !! session_id) as [h|] eqn:Hh; simpl.
    + by apply (Hinv session_id).
    + done.
  - by apply map_Forall_delete.
Qed.

Lemma turns_cons (e : string * string) (es : list (string * string)) :
  turns (e :: es)
  = Message "user" e.1 :: Message "assistant" e.2 :: turns es.
Proof. done. Qed.

Lemma turns_length (es : list (string * string)) :
  length (turns es) = (2 * length es)%nat.
Proof.
  induction es as [|e es IH]; [done|].
  rewrite turns_cons. cbn [length]. lia.
Qed.

Lemma turns_drop (k : nat) (es : list (string * string)) :
  drop (2 * k) (turns es) = turns (drop k es).
Proof.
  revert es. induction k as [|k IH]; intros es; [done|].
  replace (2 * S k)%nat with (S (S (2 * k))) by lia.
  destruct es as [|e es]; [done|]. rewrite turns_cons. apply IH.
Qed.

Lemma drop_last (m : nat) (l : list message) :
  (m ≤ length l - 10)%nat →
  drop (length (drop m l) - 10) (drop m l) = drop (length l - 10) l.
Proof.
  intros Hm. rewrite drop_drop, length_drop. f_equal. lia.
Qed.

Lemma exec_generate_ok (session_id u a : string) (self : LanguageModel) :
  is_initialized self = true →
  provider self = "openai" →
  exec (Generate (λ _, Ok a) u session_id) self
  = Build (provider self) (is_initialized self)
      (<[session_id := extend_and_trim (history session_id self) u a]>
         (conversation_history self)).
Proof.
  intros Hinit Hprov. simpl.
  unfold generate_response, _generate_openai_response, history.
  rewrite Hinit, Hprov. reflexivity.
Qed.

(** Keeping the last ten messages after every exchange is keeping the
    last ten messages of the whole conversation. *)
Lemma run_exchange_calls (session_id : string)
    (es : list (string * string)) (self : LanguageModel) :
  is_initialized self = true →
  provider self = "openai" →
  (length (history session_id self) ≤ 10)%nat →
  history session_id (run (exchange_calls session_id es) self)
  = drop (length (history session_id self ++ turns es) - 10)
      (history session_id self ++ turns es).
Proof.
  revert self. induction es as [|[u a] es IH]; intros self Hinit Hprov Hlen.
  - simpl. rewrite app_nil_r.
    replace (length (history session_id self) - 10)%nat with 0%nat by lia.
    done.
  - change (run (exchange_calls session_id ((u, a) :: es)) self)
      with (run (exchange_calls session_id es)
              (exec (Generate (λ _, Ok a) u session_id) self)).
    rewrite (exec_generate_ok _ _ _ _ Hinit Hprov).
    rewrite IH; [|done|done|].
    + unfold history at 1 3. cbn [conversation_history].
      rewrite lookup_insert_eq. cbn [default from_option].
      rewrite extend_and_trim_closed, turns_cons. cbn [fst snd].
      unfold id. rewrite <- app_assoc. cbn [app].
      rewrite <- drop_app_le by lia.
      apply drop_last. rewrite length_app. cbn [length]. lia.
    + unfold history at 1. cbn [conversation_history].
      rewrite lookup_insert_eq. cbn [default from_option]. unfold id.
      rewrite extend_and_trim_length. lia.
Qed.

End ConversationFacts.

(** X7.  A successful exchange stores the last 8 messages of the
    previous history of the session followed by the new user turn and
    the new assistant turn: the oldest exchange is dropped once five are
    stored, and the newest is always kept. *)
Theorem exchange_keeps_last_eight
    (acreate : list LLM.message → result string)
    (user_input session_id response : string)
    (self self' : LLM.LanguageModel) :
  LLM.generate_response acreate user_input session_id self
    = (Ok response, self') →
  LLM.history session_id self'
  = drop (length (LLM.history session_id self) - 8)
      (LLM.history session_id self)
    ++ [LLM.Message "user" user_input; LLM.Message "assistant" response].
Proof.
  intros Hgen.
  assert (He := generate_response_effect acreate user_input session_id self).
  rewrite Hgen in He. cbn [fst snd] in He. subst self'.
  unfold LLM.history at 1. cbn [LLM.conversation_history].
  rewrite lookup_insert_eq. apply extend_and_trim_closed.
Qed.

Lemma exchange_keeps_last_eight_witness :
  LLM.history "s"
    (LLM.generate_response (λ _, Ok "hi") "hello" "s"
       (Conversation.ready "openai")).2
  = [LLM.Message "user" "hello"; LLM.Message "assistant" "hi"].
Proof.
  apply (exchange_keeps_last_eight (λ _, Ok "hi") "hello" "s" "hi"
           (Conversation.ready "openai")
           (LLM.generate_response (λ _, Ok "hi") "hello" "s"
              (Conversation.ready "openai")).2).
  reflexivity.
Defined.

(** X8.  Whatever calls are made on a language model since its
    creation, every stored history is a sequence of user turns each
    followed by an assistant turn: trimming never splits an exchange. *)
Theorem history_alternates (default_provider : string)
    (script : list LLM.call) (session_id : string) :
  Conversation.alternating
    (LLM.history session_id (LLM.run script (LLM.init default_provider)))
  = true.
Proof.
  assert (Hinv : ∀ self,
            map_Forall (λ _ h, Conversation.alternating h = true)
              (LLM.conversation_history self) →
            map_Forall (λ _ h, Conversation.alternating h = true)
              (LLM.conversation_history (LLM.run script self))).
  { induction script as [|c script IH]; intros self Hself; [done|].
    apply IH, exec_preserves_alternating, Hself. }
  specialize (Hinv (LLM.init default_provider) (map_Forall_empty _)).
  unfold LLM.history.
  destruct (LLM.conversation_history _ !! session_id) as [h|] eqn:Hh; simpl.
  - apply (Hinv session_id h Hh).
  - done.
Qed.

(** X9.  After a run of exchanges in one session of a freshly
    initialized model, the stored history is exactly the turns of the
    last five exchanges, in order (all of them when there were at most
    five). *)
Theorem history_is_last_five_exchanges (session_id : string)
    (exchanges : list (string * string)) :
  LLM.history session_id
    (LLM.run (Conversation.exchange_calls session_id exchanges)
       (Conversation.ready "openai"))
  = Conversation.turns (drop (length exchanges - 5) exchanges).
Proof.
  rewrite run_exchange_calls;
    [|done|done|change (0 ≤ 10)%nat; lia].
  change (LLM.history session_id (Conversation.ready "openai")) with
    (@nil LLM.message).
  cbn [app]. rewrite turns_length.
  replace (2 * length exchanges - 10)%nat
    with (2 * (length exchanges - 5))%nat by lia.
  apply turns_drop.
Qed.

(** X10.  The provider is consulted on one list of messages only: the
    system prompt, then the stored history of the session, then the new
    user input.  On a model reached from its creation this list has at
    most 12 messages. *)
Theorem provider_sees_bounded_prompt (default_provider : string)
    (script : list LLM.call) (acreate : list LLM.message → result string)
    (user_input session_id : string) :
  LLM.generate_response acreate user_input session_id
    (LLM.run script (LLM.init default_provider))
  = LLM.generate_response
      (λ _, acreate
              (Conversation.messages_for user_input session_id
                 (LLM.run script (LLM.init default_provider))))
      user_input session_id (LLM.run script (LLM.init default_provider))
  ∧ (length
       (Conversation.messages_for user_input session_id
          (LLM.run script (LLM.init default_provider))) ≤ 12)%nat
  ∧ head
      (Conversation.messages_for user_input session_id
         (LLM.run script (LLM.init default_provider)))
    = Some (LLM.Message "system" LLM.system_prompt)
  ∧ last
      (Conversation.messages_for user_input session_id
         (LLM.run script (LLM.init default_provider)))
    = Some (LLM.Message "user" user_input).
Proof.
  split; [|split; [|split]].
  - unfold LLM.generate_response, LLM._generate_openai_response. done.
  - assert (Hinv := run_preserves script (LLM.init default_provider)
                      (map_Forall_empty _)).
    unfold Conversation.messages_for, LLM.history.
    rewrite !length_app. cbn [length].
    destruct (LLM.conversation_history _ !! session_id) as [h|] eqn:Hh; simpl.
    + destruct (Hinv session_id h Hh) as [_ Hle]. lia.
    + lia.
  - done.
  - unfold Conversation.messages_for. rewrite app_assoc. apply last_snoc.
Qed.

(** X11.  A call of [generate_response] succeeds exactly when the model
    is initialized, its provider is "openai" and the provider answers
    the messages built for it; before [initialize] every call raises
    [RuntimeError], and with another provider every call raises
    [ValueError], whatever the remote service would answer. *)
Theorem generate_response_success
    (acreate : list LLM.message → result string)
    (user_input session_id : string) (self : LLM.LanguageModel) :
  (∀ response,
     (LLM.generate_response acreate user_input session_id self).1 = Ok response
     ↔ LLM.is_initialized self = true
       ∧ LLM.provider self = "openai"
       ∧ acreate (Conversation.messages_for user_input session_id self)
         = Ok response)
  ∧ (LLM.is_initialized self = false →
     LLM.generate_response acreate user_input session_id self
     = (Raise (Exn "RuntimeError" "Language model not initialized"), self))
  ∧ (LLM.is_initialized self = true →
     LLM.provider self ≠ "openai" →
     LLM.generate_response acreate user_input session_id self
     = (Raise (Exn "ValueError"
                 ("Unsupported provider: " +:+ LLM.provider self)), self)).
Proof.
  unfold LLM.generate_response, LLM._generate_openai_response,
    Conversation.messages_for, LLM.history.
  split; [|split].
  - intros response. destruct (LLM.is_initialized self); simpl.
    + destruct (String.eqb_spec (LLM.provider self) "openai") as [Hp|Hp].
      * destruct (acreate _) as [r|e]; simpl; intuition congruence.
      * simpl. intuition congruence.
    + intuition congruence.
  - by intros ->.
  - intros -> Hp. simpl. apply String.eqb_neq in Hp. by rewrite Hp.
Qed.

Lemma generate_response_success_witness :
  LLM.generate_response (λ _, Ok "hi") "hello" "s" (LLM.init "openai")
  = (Raise (Exn "RuntimeError" "Language model not initialized"),
     LLM.init "openai").
Proof.
  apply (proj1 (proj2 (generate_response_success (λ _, Ok "hi") "hello" "s"
                         (LLM.init "openai")))).
  reflexivity.
Defined.

(** X12.  Clearing the history of a session leaves it empty and leaves
    the other sessions alone; the next successful exchange of the
    session then stores just its own two turns. *)
Theorem clear_history_restarts
    (acreate : list LLM.message → result string)
    (user_input session_id response : string)
    (self self' : LLM.LanguageModel) :
  LLM.history session_id (LLM.clear_history session_id self) = []
  ∧ (∀ k : string, k ≠ session_id →
       LLM.history k (LLM.clear_history session_id self) = LLM.history k self)
  ∧ (LLM.generate_response acreate user_input session_id
       (LLM.clear_history session_id self) = (Ok response, self') →
     LLM.history session_id self'
     = [LLM.Message "user" user_input; LLM.Message "assistant" response]).
Proof.
  assert (Hclear : LLM.history session_id (LLM.clear_history session_id self)
                   = []).
  { unfold LLM.history, LLM.clear_history. simpl.
    by rewrite lookup_delete_eq. }
  split; [done|]. split.
  - intros k Hk. unfold LLM.history, LLM.clear_history. simpl.
    by rewrite lookup_delete_ne.
  - intros Hgen.
    assert (He := generate_response_effect acreate user_input session_id
                    (LLM.clear_history session_id self)).
    rewrite Hgen in He. cbn [fst snd] in He. subst self'.
    unfold LLM.history at 1. cbn [LLM.conversation_history].
    rewrite lookup_insert_eq, Hclear. done.
Qed.

Lemma clear_history_restarts_witness :
  LLM.history "s"
    (LLM.generate_response (λ _, Ok "b") "a" "s"
       (LLM.clear_history "s"
          (LLM.generate_response (λ _, Ok "hi") "hello" "s"
             (Conversation.ready "openai")).2)).2
  = [LLM.Message "user" "a"; LLM.Message "assistant" "b"].
Proof.
  apply (proj2 (proj2 (clear_history_restarts (λ _, Ok "b") "a" "s" "b"
           (LLM.generate_response (λ _, Ok "hi") "hello" "s"
              (Conversation.ready "openai")).2
           (LLM.generate_response (λ _, Ok "b") "a" "s"
              (LLM.clear_history "s"
                 (LLM.generate_response (λ _, Ok "hi") "hello" "s"
                    (Conversation.ready "openai")).2)).2))).
  reflexivity.
Defined.

(** ** The voice synthesizer *)

(** X13.  A call of [synthesize] returns audio exactly when the
    synthesizer is initialized, its provider is "elevenlabs" and the
    remote service returns that audio for the text; before [initialize]
    every call raises [RuntimeError] whatever the service would do. *)
Theorem synthesize_success
    (elevenlabs_generate : string → result (list byte)) (text : string)
    (self : Voice.VoiceSynthesizer) :
  (∀ audio,
     Voice.synthesize elevenlabs_generate text self = Ok audio
     ↔ Voice.is_initialized self = true
       ∧ Voice.provider self = "elevenlabs"
       ∧ elevenlabs_generate text = Ok audio)
  ∧ (Voice.is_initialized self = false →
     Voice.synthesize elevenlabs_generate text self
     = Raise (Exn "RuntimeError" "Voice synthesizer not initialized")).
Proof.
  unfold Voice.synthesize. split.
  - intros audio. destruct (Voice.is_initialized self); simpl.
    + destruct (String.eqb_spec (Voice.provider self) "elevenlabs");
        intuition congruence.
    + intuition congruence.
  - by intros ->.
Qed.

Lemma synthesize_success_witness :
  Voice.synthesize (λ _, Ok [x01]) "hi" (Voice.init "elevenlabs")
  = Raise (Exn "RuntimeError" "Voice synthesizer not initialized").
Proof.
  apply (proj2 (synthesize_success (λ _, Ok [x01]) "hi"
                  (Voice.init "elevenlabs"))).
  reflexivity.
Defined.

(** ** The handler: every run *)

Section RunFacts.
Import App Protocol.
Implicit Types (st : state) (w : world) (session_id : string).

Lemma touched_refl session_id (sessions : gmap string Session.session_data) :
  touched session_id sessions sessions.
Proof.
  split; [done|]. destruct (sessions !! session_id) as [d|]; eauto.
Qed.

Lemma touched_trans session_id
    (s1 s2 s3 : gmap string Session.session_data) :
  touched session_id s1 s2 → touched session_id s2 s3 →
  touched session_id s1 s3.
Proof.
  intros [Ho12 Hs12] [Ho23 Hs23]. split.
  - intros k Hk. by rewrite Ho23, Ho12.
  - destruct (s1 !! session_id) as [d|].
    + destruct Hs12 as (d' & Hd' & ? & ?). rewrite Hd' in Hs23.
      destruct Hs23 as (d'' & ? & ? & ?). exists d''.
      split; [done|]. split; congruence.
    + by rewrite Hs12 in Hs23.
Qed.

Lemma touched_update now session_id
    (sessions : gmap string Session.session_data) :
  touched session_id sessions
    (Session.update_session now session_id sessions).
Proof.
  split.
  - intros k Hk. by rewrite update_session_lookup_full, decide_False.
  - rewrite update_session_lookup_full, decide_True by done.
    destruct (sessions !! session_id) as [d|]; simpl; eauto.
Qed.

Lemma same_but_history_refl session_id (lm : LLM.LanguageModel) :
  same_but_history session_id lm lm.
Proof. done. Qed.

Lemma same_but_history_trans session_id (l1 l2 l3 : LLM.LanguageModel) :
  same_but_history session_id l1 l2 → same_but_history session_id l2 l3 →
  same_but_history session_id l1 l3.
Proof.
  intros (? & ? & H12) (? & ? & H23). split; [congruence|].
  split; [congruence|]. intros k Hk. by rewrite H23, H12.
Qed.

Lemma same_but_history_generate session_id
    (acreate : list LLM.message → result string) (u : string)
    (lm : LLM.LanguageModel) :
  same_but_history session_id lm
    (LLM.generate_response acreate u session_id lm).2.
Proof.
  assert (He := generate_response_effect acreate u session_id lm).
  destruct (LLM.generate_response acreate u session_id lm).1; rewrite He;
    [|done].
  split; [done|]. split; [done|]. intros k Hk. simpl.
  by rewrite lookup_insert_ne.
Qed.

(** What one turn does, started on an open connection. *)
Lemma loop_body_outcome session_id w st :
  closed (websocket st) = false →
  audio_processor (loop_body session_id w st).2 = audio_processor st
  ∧ voice_synthesizer (loop_body session_id w st).2 = voice_synthesizer st
  ∧ match (loop_body session_id w st).1 with
    | Ok Continue =>
        closed (websocket (loop_body session_id w st).2) = false
        ∧ (sent (websocket (loop_body session_id w st).2)
             = sent (websocket st)
           ∨ ∃ audio_response,
               sent (websocket (loop_body session_id w st).2)
               = sent (websocket st) ++ [SentBytes audio_response])
        ∧ session_manager (loop_body session_id w st).2
          = Session.update_session (now w) session_id (session_manager st)
    | Ok Break =>
        websocket (loop_body session_id w st).2
          = BuildWebSocket true
              (sent (websocket st) ++ [SentClose WS_1000_NORMAL_CLOSURE])
        ∧ session_manager (loop_body session_id w st).2 = session_manager st
    | Raise e =>
        sent (websocket (loop_body session_id w st).2) = sent (websocket st)
        ∧ session_manager (loop_body session_id w st).2 = session_manager st
    end.
Proof.
  unfold loop_body, try_except, bind, wrap, try_except, receive_bytes,
    call_process, call_transcribe, call_generate_response, call_synthesize,
    send_bytes, send, close, update_session, ret, raise.
  intros Hopen.
  repeat (case_match; simplify_eq/=); eauto 10.
Qed.

Lemma on_exception_outcome e st :
  audio_processor (on_exception e st) = audio_processor st
  ∧ voice_synthesizer (on_exception e st) = voice_synthesizer st
  ∧ session_manager (on_exception e st) = session_manager st
  ∧ websocket (on_exception e st)
    = if closed (websocket st) then websocket st
      else BuildWebSocket true
             (sent (websocket st)
                ++ [SentJson (PyDict [("error", PyStr (exn_str e))]);
                    SentClose WS_1011_INTERNAL_ERROR]).
Proof.
  unfold on_exception, try_except, bind, send_json, send, close.
  destruct (closed (websocket st)) eqn:Hc; simpl; [done|].
  by rewrite <- app_assoc.
Qed.

Lemma finally_outcome session_id st :
  audio_processor (finally session_id st) = audio_processor st
  ∧ voice_synthesizer (finally session_id st) = voice_synthesizer st
  ∧ session_manager (finally session_id st)
    = Session.end_session session_id (session_manager st)
  ∧ websocket (finally session_id st)
    = if closed (websocket st) then websocket st
      else BuildWebSocket true
             (sent (websocket st) ++ [SentClose WS_1000_NORMAL_CLOSURE]).
Proof.
  unfold finally, try_except, close. simpl.
  by destruct (closed (websocket st)) eqn:Hc.
Qed.

(** What the turns of a connection do, started on an open connection. *)
Lemma while_true_outcome session_id (ws : list world) st :
  closed (websocket st) = false →
  ∃ replies : list (list byte),
    (length replies ≤ length ws)%nat
    ∧ audio_processor (while_true session_id ws st).2 = audio_processor st
    ∧ voice_synthesizer (while_true session_id ws st).2
      = voice_synthesizer st
    ∧ touched session_id (session_manager st)
        (session_manager (while_true session_id ws st).2)
    ∧ same_but_history session_id (language_model st)
        (language_model (while_true session_id ws st).2)
    ∧ match (while_true session_id ws st).1 with
      | Ok AWAITING_FRAME =>
          websocket (while_true session_id ws st).2
          = BuildWebSocket false
              (sent (websocket st) ++ map SentBytes replies)
      | Ok CLOSED =>
          websocket (while_true session_id ws st).2
          = BuildWebSocket true
              (sent (websocket st) ++ map SentBytes replies
                 ++ [SentClose WS_1000_NORMAL_CLOSURE])
      | Raise e =>
          sent (websocket (while_true session_id ws st).2)
          = sent (websocket st) ++ map SentBytes replies
      end.
Proof.
  revert st. induction ws as [|w ws IH]; intros st Hopen.
  - exists []. simpl. rewrite app_nil_r.
    split; [done|]. split; [done|]. split; [done|].
    split; [apply touched_refl|]. split; [done|].
    destruct (websocket st) as [c s]. simpl in *. by subst c.
  - rewrite while_true_cons.
    destruct (loop_body_outcome session_id w st Hopen) as (Hap & Hvs & Hturn).
    assert (Hlm : same_but_history session_id (language_model st)
                    (language_model (loop_body session_id w st).2)).
    { destruct (loop_body_language_model session_id w st) as [->|[u ->]];
        [done|apply same_but_history_generate]. }
    destruct (loop_body session_id w st) as [[[]|e] st1]; cbn [fst snd] in *.
    + destruct Hturn as (Hopen1 & Hsent & Hsm).
      destruct (IH st1 Hopen1) as (replies & Hn & Hap' & Hvs' & Ht & Hl & Hr).
      assert (Htouched : touched session_id (session_manager st)
                (session_manager (while_true session_id ws st1).2)).
      { eapply touched_trans; [|exact Ht]. rewrite Hsm.
        apply touched_update. }
      assert (Hlm' : same_but_history session_id (language_model st)
                (language_model (while_true session_id ws st1).2)).
      { eapply same_but_history_trans; [exact Hlm|exact Hl]. }
      destruct Hsent as [Hsent|[b Hsent]]; rewrite Hsent in Hr.
      * exists replies. split; [simpl; lia|]. split; [congruence|].
        split; [congruence|]. split; [done|]. split; [done|]. exact Hr.
      * exists (b :: replies). split; [simpl; lia|]. split; [congruence|].
        split; [congruence|]. split; [done|]. split; [done|].
        cbn [map]. rewrite <- !app_assoc in Hr. exact Hr.
    + destruct Hturn as (Hws & Hsm). exists [].
      split; [simpl; lia|]. split; [done|]. split; [done|].
      split; [rewrite Hsm; apply touched_refl|]. split; [done|].
      by rewrite Hws.
    + destruct Hturn as (Hsent & Hsm). exists [].
      split; [simpl; lia|]. split; [done|]. split; [done|].
      split; [rewrite Hsm; apply touched_refl|]. split; [done|].
      simpl. by rewrite app_nil_r.
Qed.

End RunFacts.

Section EndpointRunFacts.
Import App Protocol.
Implicit Types (st : state) (w : world) (session_id : string).

(** The handler as a whole, in terms of the state in which its loop
    stops. *)
Lemma websocket_endpoint_unfold session_id now1 now2 (ws : list world) st :
  websocket_endpoint session_id now1 now2 ws st
  = match while_true session_id ws (on_connect session_id now1 now2 st) with
    | (Ok AWAITING_FRAME, st') => (AWAITING_FRAME, st')
    | (Ok CLOSED, st') => (CLOSED, finally session_id st')
    | (Raise e, st') => (CLOSED, finally session_id (on_exception e st'))
    end.
Proof. done. Qed.

Lemma on_connect_touched session_id now1 now2 st k :
  k ≠ session_id →
  session_manager (on_connect session_id now1 now2 st) !! k
  = session_manager st !! k.
Proof.
  intros Hk. unfold on_connect. simpl. unfold Session.create_session.
  by rewrite lookup_insert_ne.
Qed.

End EndpointRunFacts.

(** X14.  Where a run of the handler stands and what the registry
    says agree: while the handler waits for a frame the connection is
    open and the session is registered as active; once the handler has
    terminated, whatever the reason, the connection is closed and the
    session is registered as inactive.  The session keeps the creation
    time it was given. *)
Theorem handler_lifecycle (session_id : string) (now1 now2 : Z)
    (ws : list App.world) (st : App.state) :
  ∃ d,
    App.session_manager
      (App.websocket_endpoint session_id now1 now2 ws st).2 !! session_id
    = Some d
    ∧ Session.created_at d = now1
    ∧ match (App.websocket_endpoint session_id now1 now2 ws st).1 with
      | App.AWAITING_FRAME =>
          Session.is_active d = true
          ∧ App.closed
              (App.websocket
                 (App.websocket_endpoint session_id now1 now2 ws st).2)
            = false
      | App.CLOSED =>
          Session.is_active d = false
          ∧ App.closed
              (App.websocket
                 (App.websocket_endpoint session_id now1 now2 ws st).2)
            = true
      end.
Proof.
  rewrite websocket_endpoint_unfold.
  destruct (on_connect_spec session_id now1 now2 st) as [Hws Hs].
  destruct (while_true_outcome session_id ws
              (App.on_connect session_id now1 now2 st))
    as (replies & _ & _ & _ & [_ Ht] & _ & Hr); [by rewrite Hws|].
  rewrite Hs in Ht. destruct Ht as (d & Hd & Hact & Hcr). simpl in Hact, Hcr.
  destruct (App.while_true _ _ _) as [[[]|e] st']; cbn [fst snd] in *.
  - exists d. rewrite Hr. done.
  - destruct (finally_outcome session_id st') as (_ & _ & Hsm & Hw).
    exists (Session.SessionData (Session.created_at d)
              (Session.last_activity d) false).
    rewrite Hsm, Hw, Hr. simpl.
    by rewrite end_session_lookup, decide_True, Hd.
  - destruct (finally_outcome session_id (App.on_exception e st'))
      as (_ & _ & Hsm & Hw).
    destruct (on_exception_outcome e st') as (_ & _ & Hsm' & Hw').
    exists (Session.SessionData (Session.created_at d)
              (Session.last_activity d) false).
    rewrite Hsm, Hw, Hsm', Hw'.
    rewrite end_session_lookup, decide_True, Hd by done.
    split; [done|]. split; [done|]. split; [done|].
    destruct (App.closed (App.websocket st')) eqn:Hc; simpl; by rewrite ?Hc.
Qed.

(** X15.  What a client can receive on one connection: the audio
    replies, at most one per frame, and then nothing more, or the close
    frame with code 1000, or one error object followed by the close
    frame with code 1011.  While the handler is waiting only replies
    have been sent; there is never more than one close frame, and
    nothing follows it. *)
Theorem connection_transcript_shape (session_id : string) (now1 now2 : Z)
    (ws : list App.world) (st : App.state) :
  ∃ (replies : list (list byte)) (tail : list App.ws_msg),
    App.sent
      (App.websocket (App.websocket_endpoint session_id now1 now2 ws st).2)
    = map App.SentBytes replies ++ tail
    ∧ Protocol.ending tail
    ∧ (length replies ≤ length ws)%nat
    ∧ ((App.websocket_endpoint session_id now1 now2 ws st).1
         = App.AWAITING_FRAME → tail = []).
Proof.
  rewrite websocket_endpoint_unfold.
  destruct (on_connect_spec session_id now1 now2 st) as [Hws Hs].
  destruct (while_true_outcome session_id ws
              (App.on_connect session_id now1 now2 st))
    as (replies & Hn & _ & _ & _ & _ & Hr); [by rewrite Hws|].
  rewrite Hws in Hr. cbn [App.sent app] in Hr.
  exists replies.
  destruct (App.while_true _ _ _) as [[[]|e] st']; cbn [fst snd] in *.
  - exists []. rewrite Hr. simpl. rewrite app_nil_r.
    split; [done|]. split; [constructor|]. done.
  - exists [App.SentClose App.WS_1000_NORMAL_CLOSURE].
    destruct (finally_outcome session_id st') as (_ & _ & _ & ->).
    rewrite Hr. simpl. split; [done|]. split; [constructor|]. done.
  - destruct (finally_outcome session_id (App.on_exception e st'))
      as (_ & _ & _ & ->).
    destruct (on_exception_outcome e st') as (_ & _ & _ & ->).
    destruct (App.closed (App.websocket st')) eqn:Hc; simpl; rewrite ?Hc.
    + exists []. rewrite Hr, app_nil_r.
      split; [done|]. split; [constructor|]. done.
    + eexists. rewrite Hr. split; [done|]. split; [constructor|]. done.
Qed.

(** X16.  A connection touches nothing of the other sessions: for every
    other identifier the registry entry and the stored history are the
    same before and after the run of the handler, and the settings of
    the language model, the voice synthesizer and the audio processor
    are unchanged. *)
Theorem handler_isolation (session_id : string) (now1 now2 : Z)
    (ws : list App.world) (st : App.state) (k : string) :
  k ≠ session_id →
  App.session_manager (App.websocket_endpoint session_id now1 now2 ws st).2
    !! k = App.session_manager st !! k
  ∧ LLM.history k
      (App.language_model (App.websocket_endpoint session_id now1 now2 ws st).2)
    = LLM.history k (App.language_model st)
  ∧ LLM.is_initialized
      (App.language_model (App.websocket_endpoint session_id now1 now2 ws st).2)
    = LLM.is_initialized (App.language_model st)
  ∧ App.voice_synthesizer (App.websocket_endpoint session_id now1 now2 ws st).2
    = App.voice_synthesizer st
  ∧ App.audio_processor (App.websocket_endpoint session_id now1 now2 ws st).2
    = App.audio_processor st.
Proof.
  intros Hk. rewrite websocket_endpoint_unfold.
  destruct (on_connect_spec session_id now1 now2 st) as [Hws Hs].
  destruct (while_true_outcome session_id ws
              (App.on_connect session_id now1 now2 st))
    as (replies & _ & Hap & Hvs & [Ht _] & (_ & Hinit & Hh) & _);
    [by rewrite Hws|].
  specialize (Ht k Hk). specialize (Hh k Hk).
  rewrite on_connect_touched in Ht by done.
  change (App.language_model (App.on_connect session_id now1 now2 st))
    with (App.language_model st) in *.
  change (App.voice_synthesizer (App.on_connect session_id now1 now2 st))
    with (App.voice_synthesizer st) in *.
  change (App.audio_processor (App.on_connect session_id now1 now2 st))
    with (App.audio_processor st) in *.
  unfold LLM.history.
  destruct (App.while_true _ _ _) as [[[]|e] st']; cbn [fst snd] in *.
  - by rewrite Ht, Hh.
  - destruct (finally_outcome session_id st') as (-> & -> & -> & _).
    rewrite finally_language_model.
    by rewrite end_session_lookup, decide_False, Ht, Hh.
  - destruct (finally_outcome session_id (App.on_exception e st'))
      as (-> & -> & -> & _).
    destruct (on_exception_outcome e st') as (-> & -> & -> & _).
    rewrite finally_language_model, on_exception_language_model.
    by rewrite end_session_lookup, decide_False, Ht, Hh.
Qed.

Lemma handler_isolation_witness :
  App.session_manager
    (App.websocket_endpoint "s" 0 0 [Examples.hello] Examples.started).2
    !! "other" = App.session_manager Examples.started !! "other".
Proof.
  apply (handler_isolation "s" 0 0 [Examples.hello] Examples.started "other").
  discriminate.
Defined.

(** X17.  When the handler is waiting and the client disconnects before
    the receive timeout, the handler terminates without sending
    anything more, neither an error object nor a close frame, and the
    registry holds the session as inactive. *)
Theorem disconnect_ends_session (session_id : string) (now1 now2 : Z)
    (ws : list App.world) (w : App.world) (st st1 : App.state) :
  App.while_true session_id ws (App.on_connect session_id now1 now2 st)
    = (Ok App.AWAITING_FRAME, st1) →
  Protocol.disconnects w →
  ∃ st',
    App.websocket_endpoint session_id now1 now2 (ws ++ [w]) st
      = (App.CLOSED, st')
    ∧ App.websocket st'
      = App.BuildWebSocket true (App.sent (App.websocket st1))
    ∧ ∃ d, App.session_manager st' !! session_id = Some d
           ∧ Session.is_active d = false.
Proof.
  intros Hrun (delay & code & Ha & Hd).
  destruct (on_connect_spec session_id now1 now2 st) as [Hws Hs].
  destruct (while_true_awaiting _ _ _ _ Hrun) as (Hopen & _ & [d Hd1]).
  { by rewrite Hws. } { rewrite Hs. eauto. }
  unfold App.websocket_endpoint.
  rewrite while_true_app, Hrun, while_true_cons.
  unfold App.loop_body, App.try_except, App.bind, App.receive_bytes.
  rewrite Ha. apply Z.ltb_lt in Hd. rewrite Hd. simpl.
  eexists. split; [reflexivity|].
  unfold App.finally, App.on_exception, App.try_except, App.bind,
    App.send_json, App.send, App.close.
  simpl. split; [done|].
  rewrite end_session_lookup, decide_True, Hd1 by done. simpl. eauto.
Qed.

Lemma disconnect_ends_session_witness :
  ∃ st',
    App.websocket_endpoint "s" 0 0
      ([Examples.hello]
         ++ [App.World (Some (5, App.Disconnect 1001))
               (λ _, Ok (App.Transcript "hello" true)) (λ _, Ok "hi there")
               (λ _, Ok [x01; x02]) 7])
      Examples.started = (App.CLOSED, st')
    ∧ App.websocket st'
      = App.BuildWebSocket true [App.SentBytes [x01; x02]].
Proof.
  destruct (disconnect_ends_session "s" 0 0 [Examples.hello]
              (App.World (Some (5, App.Disconnect 1001))
                 (λ _, Ok (App.Transcript "hello" true)) (λ _, Ok "hi there")
                 (λ _, Ok [x01; x02]) 7)
              Examples.started
              (App.while_true "s" [Examples.hello]
                 (App.on_connect "s" 0 0 Examples.started)).2
              eq_refl)
    as (st' & Hrun & Hws & _).
  - exists 5, 1001. split; reflexivity.
  - exists st'. split; [exact Hrun|exact Hws].
Defined.

(** X18.  A connection counts as one active session exactly while its
    handler is waiting for frames: for a session identifier not yet in
    the registry, the number of active sessions is one more than before
    while the handler waits, and back to what it was once the handler
    has terminated. *)
Theorem active_count_after_connection (session_id : string) (now1 now2 : Z)
    (ws : list App.world) (st : App.state) :
  App.session_manager st !! session_id = None →
  Session.get_active_sessions_count
    (App.session_manager (App.websocket_endpoint session_id now1 now2 ws st).2)
  = Session.get_active_sessions_count (App.session_manager st)
    + match (App.websocket_endpoint session_id now1 now2 ws st).1 with
      | App.AWAITING_FRAME => 1
      | App.CLOSED => 0
      end.
Proof.
  intros Hfresh. rewrite websocket_endpoint_unfold.
  destruct (on_connect_spec session_id now1 now2 st) as [Hws Hs].
  destruct (while_true_outcome session_id ws
              (App.on_connect session_id now1 now2 st))
    as (replies & _ & _ & _ & [Ho Ht] & _ & _); [by rewrite Hws|].
  rewrite Hs in Ht. destruct Ht as (d & Hd & Hact & _). simpl in Hact.
  assert (Hcount : ∀ st' : App.state,
            App.session_manager st'
              = (App.while_true session_id ws
                   (App.on_connect session_id now1 now2 st)).2.(App.session_manager) →
            Session.get_active_sessions_count (App.session_manager st')
            = Session.get_active_sessions_count (App.session_manager st) + 1).
  { intros st' ->.
    assert (App.session_manager
              (App.while_true session_id ws
                 (App.on_connect session_id now1 now2 st)).2
            = <[session_id := d]> (App.session_manager st)) as ->.
    { apply map_eq. intros k. destruct (decide (k = session_id)) as [->|Hk].
      - by rewrite lookup_insert_eq.
      - rewrite lookup_insert_ne by done. rewrite Ho by done.
        by apply on_connect_touched. }
    rewrite count_insert_fresh by done. by rewrite Hact. }
  destruct (App.while_true _ _ _) as [[[]|e] st']; cbn [fst snd] in *.
  - by apply Hcount.
  - destruct (finally_outcome session_id st') as (_ & _ & -> & _).
    unfold Session.end_session. rewrite Hd.
    rewrite (count_insert_known _ _ _ _ Hd), (Hcount st' eq_refl), Hact.
    simpl. lia.
  - destruct (finally_outcome session_id (App.on_exception e st'))
      as (_ & _ & -> & _).
    destruct (on_exception_outcome e st') as (_ & _ & -> & _).
    unfold Session.end_session. rewrite Hd.
    rewrite (count_insert_known _ _ _ _ Hd), (Hcount st' eq_refl), Hact.
    simpl. lia.
Qed.

Lemma active_count_after_connection_witness :
  Session.get_active_sessions_count
    (App.session_manager
       (App.websocket_endpoint "s" 0 0 [Examples.hello; Examples.silence]
          Examples.started).2)
  = Session.get_active_sessions_count (App.session_manager Examples.started)
    + 0.
Proof.
  apply (active_count_after_connection "s" 0 0
           [Examples.hello; Examples.silence] Examples.started).
  reflexivity.
Defined.

(** X19.  On a process whose language model was not initialized, a
    turn with a final transcript fails in the generation stage with the
    message "Language model processing failed: Language model not
    initialized", whatever the remote provider would answer; nothing is
    sent in that turn and the language model is unchanged. *)
Theorem uninitialized_model_fails_turn (session_id : string) (w : App.world)
    (st : App.state) (delay : Z) (audio_data : list byte)
    (processed : Audio.ndarray) (tr : App.transcript) :
  App.arrival w = Some (delay, App.Frame audio_data) →
  delay < App.receive_timeout →
  Audio.process (App.audio_processor st) audio_data = Ok processed →
  App.transcribe w processed = Ok tr →
  App.is_final tr = true →
  App.closed (App.websocket st) = false →
  LLM.is_initialized (App.language_model st) = false →
  (App.loop_body session_id w st).1
  = Raise (Exn "LLMError"
             "Language model processing failed: Language model not initialized")
  ∧ App.websocket (App.loop_body session_id w st).2 = App.websocket st
  ∧ App.language_model (App.loop_body session_id w st).2
    = App.language_model st.
Proof.
  intros Ha Hd Hp Ht Hf Hopen Hinit.
  rewrite (loop_body_final _ _ _ _ _ _ _ Ha Hd Hp Ht Hf Hopen).
  unfold App.after_generation, LLM.generate_response.
  rewrite Hinit. done.
Qed.

Lemma uninitialized_model_fails_turn_witness :
  (App.loop_body "s" Examples.hello
     (App.on_connect "s" 0 0 Examples.loaded)).1
  = Raise (Exn "LLMError"
             "Language model processing failed: Language model not initialized").
Proof.
  apply (uninitialized_model_fails_turn "s" Examples.hello
           (App.on_connect "s" 0 0 Examples.loaded) 1000000 Examples.frame
           (Audio.Mono [(x00, x00, x00, x00)]) (App.Transcript "hello" true));
    reflexivity.
Defined.

(** ** The start of the process *)

Section BootFacts.
Import Boot.

Lemma verify_keys_spec (keys : list (string * string))
    (environ : gmap string string) :
  (verify_keys keys environ = Ok tt
   ↔ Forall (λ ks, missing environ ks.1 = false) keys)
  ∧ (∀ e, verify_keys keys environ = Raise e →
       ∃ before key service after,
         keys = before ++ (key, service) :: after
         ∧ Forall (λ ks, missing environ ks.1 = false) before
         ∧ missing environ key = true
         ∧ e = Exn "APIKeyError" ("Missing API key for " +:+ service)).
Proof.
  induction keys as [|[key service] keys [IHok IHerr]]; simpl.
  - split; [done|]. intros e He. discriminate He.
  - destruct (missing environ key) eqn:Hm.
    + split.
      * split; [done|]. intros [Hk _]%Forall_cons. simpl in Hk. congruence.
      * intros e [= <-]. exists [], key, service, keys. done.
    + split.
      * rewrite IHok, Forall_cons. simpl. intuition.
      * intros e (before & k & s & after & -> & Hb & Hk & ->)%IHerr.
        exists ((key, service) :: before), k, s, after.
        split; [done|]. split; [by constructor|]. done.
Qed.

End BootFacts.

(** X20.  The check of the credentials passes exactly when the four
    environment variables are set to non-empty values; otherwise it
    raises [APIKeyError] naming the service of the first variable, in
    the order Retell.ai, OpenAI, Deepgram, ElevenLabs, that is unset or
    empty. *)
Theorem api_keys_check (environ : gmap string string) :
  (Boot.verify_api_keys environ = Ok tt
   ↔ Forall (λ key, ∃ value, environ !! key = Some value
                              ∧ value ≠ EmptyString)
       ["RETELL_API_KEY"; "OPENAI_API_KEY"; "DEEPGRAM_API_KEY";
        "ELEVENLABS_API_KEY"])
  ∧ (∀ e, Boot.verify_api_keys environ = Raise e →
       ∃ before key service after,
         Boot.required_keys = before ++ (key, service) :: after
         ∧ Forall (λ ks, Boot.missing environ ks.1 = false) before
         ∧ Boot.missing environ key = true
         ∧ e = Exn "APIKeyError" ("Missing API key for " +:+ service)).
Proof.
  destruct (verify_keys_spec Boot.required_keys environ) as [Hok Herr].
  split; [|exact Herr].
  unfold Boot.verify_api_keys. rewrite Hok.
  assert (Hm : ∀ key, Boot.missing environ key = false
                      ↔ ∃ value, environ !! key = Some value
                                 ∧ value ≠ EmptyString).
  { intros key. unfold Boot.missing.
    destruct (environ !! key) as [v|].
    - destruct (String.eqb_spec v EmptyString) as [->|Hv].
      + split; [done|]. by intros (v & [= <-] & ?).
      + split; [eauto|done].
    - split; [done|]. by intros (v & ? & _). }
  unfold Boot.required_keys. rewrite !Forall_cons, !Forall_nil. simpl.
  rewrite !Hm. done.
Qed.

(** ** The configuration *)

Section ConfigFacts.
Import Config.

Lemma split_dot_nonempty (key : string) : split_dot key ≠ [].
Proof.
  destruct key as [|c rest]; simpl; [done|].
  destruct (Ascii.eqb c _); [done|]. by destruct (split_dot rest).
Qed.

Lemma split_dot_app (a b : string) :
  split_dot (a +:+ "." +:+ b) = split_dot a ++ split_dot b.
Proof.
  induction a as [|c a IH]; [done|].
  change (String c a +:+ "." +:+ b) with (String c (a +:+ "." +:+ b)).
  cbn [split_dot]. rewrite IH.
  destruct (Ascii.eqb c _); [done|].
  destruct (split_dot a) as [|x xs] eqn:Ha; [|done].
  by destruct (split_dot_nonempty a).
Qed.

(** A walk that does not fall back on the default ends on a value that
    is not null. *)
Lemma walk_default (keys : list string) (value default : yaml) :
  value ≠ YNull →
  walk keys value default
  = match walk keys value YNull with
    | YNull => default
    | found => found
    end.
Proof.
  revert value. induction keys as [|k keys IH]; intros value Hv.
  - simpl. by destruct value.
  - simpl. destruct value; try done.
    destruct (map_get k items) as [v|]; [|done].
    destruct v; try done; by apply IH.
Qed.

Lemma walk_app (keys1 keys2 : list string) (value default : yaml) :
  keys1 ≠ [] →
  walk (keys1 ++ keys2) value default
  = match walk keys1 value YNull with
    | YNull => default
    | found => walk keys2 found default
    end.
Proof.
  revert value. induction keys1 as [|k keys1 IH]; intros value Hne; [done|].
  cbn [app walk]. destruct value; try done.
  destruct (map_get k items) as [v|]; [|done].
  destruct keys1 as [|k' keys1].
  - by destruct v.
  - destruct v; try done; by apply IH.
Qed.

Lemma validate_keys_spec (keys : list string) (_config : yaml) :
  (validate_keys keys _config = Ok true
   ↔ Forall (λ key, get key YNull _config ≠ YNull) keys)
  ∧ (∀ e, validate_keys keys _config = Raise e →
       ∃ before key after,
         keys = before ++ key :: after
         ∧ Forall (λ key, get key YNull _config ≠ YNull) before
         ∧ get key YNull _config = YNull
         ∧ e = Exn "ValueError" ("Missing required configuration: " +:+ key))
  ∧ validate_keys keys _config ≠ Ok false.
Proof.
  induction keys as [|key keys (IHok & IHerr & IHtrue)]; simpl.
  - split; [done|]. split; [|done]. intros e He. discriminate He.
  - destruct (get key YNull _config) eqn:Hg.
    1: { split; [|split; [|done]].
         - split; [done|]. by intros [Hk _]%Forall_cons.
         - intros e [= <-]. exists [], key, keys. done. }
    all: split; [|split; [|done]].
    all: try (rewrite IHok, Forall_cons, Hg; intuition congruence).
    all: intros e (before & k & after & -> & Hb & Hk & ->)%IHerr.
    all: exists (key :: before), k, after.
    all: split; [done|]; split; [|done].
    all: constructor; [by rewrite Hg|done].
Qed.

End ConfigFacts.

(** X21.  A dotted key is looked up segment by segment: looking up
    [a.b] is looking up [b] in what [a] gives, and falls back on the
    default as soon as [a] gives nothing. *)
Theorem get_nested (a b : string) (default _config : Config.yaml) :
  Config.get (a +:+ "." +:+ b) default _config
  = match Config.get a Config.YNull _config with
    | Config.YNull => default
    | found => Config.get b default found
    end.
Proof.
  unfold Config.get. rewrite split_dot_app.
  apply walk_app, split_dot_nonempty.
Qed.

(** X22.  The default only stands in for a missing value: what [get]
    returns is the value found under the key, whatever the default, and
    the default when there is none; a value written as null counts as
    missing.  So [get] returns null only when the default is null. *)
Theorem get_default_only_substitutes (key : string)
    (default _config : Config.yaml) :
  Config.get key default _config
  = match Config.get key Config.YNull _config with
    | Config.YNull => default
    | found => found
    end
  ∧ (Config.get key default _config = Config.YNull →
     default = Config.YNull).
Proof.
  assert (Hget : Config.get key default _config
                 = match Config.get key Config.YNull _config with
                   | Config.YNull => default
                   | found => found
                   end).
  { unfold Config.get.
    destruct (Config.split_dot key) as [|k keys] eqn:Hk.
    { by destruct (split_dot_nonempty key). }
    simpl. destruct _config; try done.
    destruct (Config.map_get k items) as [v|]; [|done].
    destruct v; try done; by apply walk_default. }
  split; [done|]. rewrite Hget.
  by destruct (Config.get key Config.YNull _config).
Qed.

Lemma get_default_only_substitutes_witness :
  Config.YNull = Config.YNull.
Proof.
  apply (proj2 (get_default_only_substitutes "audio.channels" Config.YNull
                  (Config.YMap [("audio", Config.YMap [])]))).
  reflexivity.
Defined.

(** X23.  [validate] returns [True] exactly when each of the seven
    required keys has a value that is not null, and never returns
    [False]: otherwise it raises [ValueError] naming the first required
    key, in the order of the list, that has no value. *)
Theorem validate_spec (_config : Config.yaml) :
  (Config.validate _config = Ok true
   ↔ Forall (λ key, Config.get key Config.YNull _config ≠ Config.YNull)
       Config.required_keys)
  ∧ (∀ e, Config.validate _config = Raise e →
       ∃ before key after,
         Config.required_keys = before ++ key :: after
         ∧ Forall (λ key, Config.get key Config.YNull _config ≠ Config.YNull)
             before
         ∧ Config.get key Config.YNull _config = Config.YNull
         ∧ e = Exn "ValueError" ("Missing required configuration: " +:+ key))
  ∧ Config.validate _config ≠ Ok false.
Proof. apply validate_keys_spec. Qed.

Lemma validate_spec_witness :
  Config.validate
    (Config.YMap
       [("app", Config.YMap [("name", Config.YStr "agent");
                             ("version", Config.YStr "1.0.0")]);
        ("audio", Config.YMap [("sample_rate", Config.YInt 16000);
                               ("channels", Config.YInt 1)]);
        ("speech_recognition",
         Config.YMap [("default_provider", Config.YStr "deepgram")]);
        ("llm", Config.YMap [("default_provider", Config.YStr "openai")]);
        ("voice", Config.YMap [("default_provider", Config.YStr "elevenlabs")])])
  = Ok true.
Proof.
  apply (proj1 (validate_spec _)).
  repeat constructor; vm_compute; discriminate.
Defined.

Lemma api_keys_check_witness :
  Boot.verify_api_keys
    (<["RETELL_API_KEY" := "r"]>
       (<["OPENAI_API_KEY" := "o"]>
          (<["DEEPGRAM_API_KEY" := "d"]>
             (<["ELEVENLABS_API_KEY" := "e"]> ∅))))
  = Ok tt.
Proof.
  apply (proj1 (api_keys_check _)).
  repeat constructor; eexists; (split; [reflexivity|discriminate]).
Defined.

Lemma connection_transcript_shape_witness :
  ∃ (replies : list (list byte)) (tail : list App.ws_msg),
    App.sent
      (App.websocket
         (App.websocket_endpoint "s" 0 0 [Examples.hello] Examples.started).2)
    = map App.SentBytes replies ++ tail
    ∧ tail = [].
Proof.
  destruct (connection_transcript_shape "s" 0 0 [Examples.hello]
              Examples.started) as (replies & tail & Hsent & _ & _ & Htail).
  exists replies, tail. split; [exact Hsent|].
  apply Htail. reflexivity.
Defined.

(** ** Decoding *)

Section DecodingFacts.
Import Audio.

Lemma sample_bytes_samples_of (audio_data : list byte) :
  (length audio_data mod 4 = 0)%nat →
  sample_bytes (samples_of audio_data) = audio_data.
Proof.
  remember (length audio_data) as n eqn:Hn. revert audio_data Hn.
  induction n as [n IH] using lt_wf_ind. intros audio_data -> Hmod.
  destruct audio_data as [|b0 [|b1 [|b2 [|b3 rest]]]];
    [done|simpl in Hmod; discriminate..|].
  cbn [samples_of]. unfold sample_bytes. cbn [flat_map fst snd app].
  do 4 f_equal. apply (IH (length rest)); [simpl; lia|done|].
  change (length (b0 :: b1 :: b2 :: b3 :: rest)) with (4 + length rest)%nat
    in Hmod.
  replace (4 + length rest)%nat with (length rest + 1 * 4)%nat in Hmod by lia.
  by rewrite Nat.Div0.mod_add in Hmod.
Qed.

Lemma array_samples_frames_of (samples : list float32) :
  (length samples mod 2 = 0)%nat →
  flat_map (λ f : float32 * float32, [f.1; f.2]) (frames_of samples) = samples.
Proof.
  remember (length samples) as n eqn:Hn. revert samples Hn.
  induction n as [n IH] using lt_wf_ind. intros samples -> Hmod.
  destruct samples as [|l [|r rest]]; [done|simpl in Hmod; discriminate|].
  cbn [frames_of flat_map fst snd app]. do 2 f_equal.
  apply (IH (length rest)); [simpl; lia|done|].
  change (length (l :: r :: rest)) with (2 + length rest)%nat in Hmod.
  replace (2 + length rest)%nat with (length rest + 1 * 2)%nat in Hmod by lia.
  by rewrite Nat.Div0.mod_add in Hmod.
Qed.

End DecodingFacts.

(** X24.  Decoding loses and reorders nothing: when [np.frombuffer]
    accepts a buffer, the bytes of the decoded samples, in order, are
    the buffer, four per sample; when the reshape into pairs accepts
    the samples, the frames read left then right, in order, are the
    samples. *)
Theorem decoding_keeps_bytes (audio_data : list byte)
    (samples : list Audio.float32) (audio_array : Audio.ndarray) :
  (Audio.frombuffer audio_data = Ok samples →
   sample_bytes samples = audio_data
   ∧ (4 * length samples = length audio_data)%nat)
  ∧ (Audio.reshape_2 samples = Ok audio_array →
     array_samples audio_array = samples).
Proof.
  split.
  - unfold Audio.frombuffer.
    destruct (Nat.eqb_spec (length audio_data mod 4) 0) as [Hmod|];
      [|discriminate].
    intros [= <-]. split; [by apply sample_bytes_samples_of|].
    rewrite length_samples_of.
    rewrite (Nat.div_mod_eq (length audio_data) 4) at 2. lia.
  - unfold Audio.reshape_2.
    destruct (Nat.eqb_spec (length samples mod 2) 0) as [Hmod|];
      [|discriminate].
    intros [= <-]. by apply array_samples_frames_of.
Qed.

Lemma decoding_keeps_bytes_witness :
  sample_bytes [(x01, x02, x03, x04)] = [x01; x02; x03; x04].
Proof.
  apply (proj1 (decoding_keeps_bytes [x01; x02; x03; x04]
                  [(x01, x02, x03, x04)] (Audio.Mono []))).
  reflexivity.
Defined.

(** ** The handler: longer runs *)

Section ExtensionFacts.
Import App Protocol.
Implicit Types (st : state) (w : world) (session_id : string).

Lemma while_true_app_list session_id (ws more : list world) st :
  while_true session_id (ws ++ more) st
  = match while_true session_id ws st with
    | (Ok AWAITING_FRAME, st1) => while_true session_id more st1
    | r => r
    end.
Proof.
  revert st. induction ws as [|w ws IH]; intros st; [done|].
  change ((w :: ws) ++ more) with (w :: (ws ++ more)).
  rewrite !(while_true_cons _ w).
  destruct (loop_body session_id w st) as [[[]|e] st1]; [apply IH|done..].
Qed.

(** The messages of a state and of what the clauses after the loop make
    of it. *)
Lemma sent_after_loop session_id (ws : list world) st :
  closed (websocket st) = false →
  sent (websocket st)
    `prefix_of`
  sent (websocket
          match while_true session_id ws st with
          | (Ok AWAITING_FRAME, st') => st'
          | (Ok CLOSED, st') => finally session_id st'
          | (Raise e, st') => finally session_id (on_exception e st')
          end).
Proof.
  intros Hopen.
  destruct (while_true_outcome session_id ws st Hopen)
    as (replies & _ & _ & _ & _ & _ & Hr).
  destruct (while_true session_id ws st) as [[[]|e] st']; cbn [fst snd] in *.
  - rewrite Hr. by eexists.
  - destruct (finally_outcome session_id st') as (_ & _ & _ & ->).
    rewrite Hr. simpl. by eexists.
  - destruct (finally_outcome session_id (on_exception e st'))
      as (_ & _ & _ & ->).
    destruct (on_exception_outcome e st') as (_ & _ & _ & ->).
    destruct (closed (websocket st')) eqn:Hc; simpl; rewrite ?Hc, Hr.
    + by eexists.
    + simpl. rewrite <- app_assoc. by eexists.
Qed.

End ExtensionFacts.

(** X25.  The terminated state is final: once a run of the handler has
    ended, whatever the client or the services would do afterwards has
    no effect on the connection, the registry or the histories. *)
Theorem closed_is_final (session_id : string) (now1 now2 : Z)
    (ws more : list App.world) (st : App.state) :
  (App.websocket_endpoint session_id now1 now2 ws st).1 = App.CLOSED →
  App.websocket_endpoint session_id now1 now2 (ws ++ more) st
  = App.websocket_endpoint session_id now1 now2 ws st.
Proof.
  rewrite !websocket_endpoint_unfold, while_true_app_list.
  by destruct (App.while_true session_id ws _) as [[[]|e] st'].
Qed.

Lemma closed_is_final_witness :
  App.websocket_endpoint "s" 0 0
    ([Examples.silence] ++ [Examples.hello]) Examples.started
  = App.websocket_endpoint "s" 0 0 [Examples.silence] Examples.started.
Proof.
  apply (closed_is_final "s" 0 0 [Examples.silence] [Examples.hello]
           Examples.started).
  reflexivity.
Defined.

(** X26.  What has been sent stays sent, in the same order: the
    messages of a run are a prefix of the messages of every longer run
    of the same connection. *)
Theorem sent_messages_only_grow (session_id : string) (now1 now2 : Z)
    (ws more : list App.world) (st : App.state) :
  App.sent
    (App.websocket (App.websocket_endpoint session_id now1 now2 ws st).2)
    `prefix_of`
  App.sent
    (App.websocket
       (App.websocket_endpoint session_id now1 now2 (ws ++ more) st).2).
Proof.
  rewrite !websocket_endpoint_unfold, while_true_app_list.
  destruct (on_connect_spec session_id now1 now2 st) as [Hws _].
  destruct (while_true_outcome session_id ws
              (App.on_connect session_id now1 now2 st))
    as (replies & _ & _ & _ & _ & _ & Hr); [by rewrite Hws|].
  destruct (App.while_true session_id ws _) as [[[]|e] st1];
    cbn [fst snd] in *; [|done..].
  assert (Hopen : App.closed (App.websocket st1) = false) by by rewrite Hr.
  assert (Hp := sent_after_loop session_id more st1 Hopen).
  by destruct (App.while_true session_id more st1) as [[[]|e] st'].
Qed.

(** X27.  The last activity of a session is updated by the turns that
    succeed and by no other: a turn on an open connection that lets the
    loop go on sets it to the clock reading of that turn, and a turn
    that ends the loop, by the timeout or by a failure, leaves the
    registry as it was. *)
Theorem activity_updated_only_on_success (session_id : string)
    (w : App.world) (st : App.state) :
  App.closed (App.websocket st) = false →
  App.session_manager (App.loop_body session_id w st).2
  = match (App.loop_body session_id w st).1 with
    | Ok App.Continue =>
        Session.update_session (App.now w) session_id (App.session_manager st)
    | _ => App.session_manager st
    end.
Proof.
  intros Hopen.
  destruct (loop_body_outcome session_id w st Hopen) as (_ & _ & Hturn).
  destruct (App.loop_body session_id w st).1 as [[]|e];
    [by destruct Hturn as (_ & _ & ?)|by destruct Hturn as [_ ?]..].
Qed.

Lemma activity_updated_only_on_success_witness :
  App.session_manager
    (App.loop_body "s" Examples.transcription_fault
       (App.on_connect "s" 0 0 Examples.started)).2
  = App.session_manager (App.on_connect "s" 0 0 Examples.started).
Proof.
  apply (activity_updated_only_on_success "s" Examples.transcription_fault
           (App.on_connect "s" 0 0 Examples.started)).
  reflexivity.
Defined.
